(** * Formula evaluator for parametric cabinet design

    A shallow embedding of [backend/utils/formulaEvaluator.js]:
    [validateFormula], [evaluateFormula] and [evaluatePartDimensions],
    together with a model of the part of the ECMAScript host the three
    functions rely on: global replacement with a regular expression on
    strings, IEEE-754 doubles, the functions of [Math] the evaluator hands
    to a formula, the global functions [isNaN] and [isFinite] it checks the
    result with, and the [Function] constructor on the fragment of the
    language that arithmetic formulas live in.

    [evaluateFormula] runs the text of a formula as the body of a function
    made by the host.  What the host does with a body is therefore part of
    the model: module [JS] gives the lexical grammar, the syntax and the
    evaluation of expressions made of numbers, identifiers, [+ - * /], unary
    signs, parentheses, calls and member access, after ECMAScript, on a host
    whose global functions are the built-in ones.  Module [Realm] evaluates
    the same expressions on a host in which a formula can reach the
    [Function] constructor and assign to [isNaN] and [isFinite].  A body
    outside the modelled fragment has no result ([None]), it is never given
    a made-up one.  The properties of [evaluateFormula] that do not depend
    on what the host computes are stated for every host.

    Variable names are taken to be made of ASCII letters, digits and [_],
    and formulas to be ASCII: the validator splices the names into a regular
    expression, where another character could be an operator of the
    pattern, and the class [\s] has members outside ASCII.  Statements
    about the verdict of the validator carry the condition on the names. *)

From Stdlib Require Import Bool List String Ascii ZArith Lia.
From Stdlib Require Import Floats DecimalString.
Import ListNotations.

Local Open Scope string_scope.
Local Open Scope list_scope.

(** ** Strings

    JavaScript strings are modelled as [string]; formulas and variable names
    are ASCII. *)

Module Str.

(** The ASCII members of the regular-expression class [\s]: TAB, LF, VT,
    FF, CR and SPACE. *)
Definition is_space (c : ascii) : bool :=
  let n := nat_of_ascii c in
  ((9 <=? n) && (n <=? 13))%nat || (n =? 32)%nat.

(** The class [\d]. *)
Definition is_digit (c : ascii) : bool :=
  let n := nat_of_ascii c in
  ((48 <=? n) && (n <=? 57))%nat.

Definition is_alpha (c : ascii) : bool :=
  let n := nat_of_ascii c in
  ((65 <=? n) && (n <=? 90))%nat || ((97 <=? n) && (n <=? 122))%nat.

(** A character that may continue an identifier ([$] and non-ASCII letters
    are left out of the model). *)
Definition is_ident_part (c : ascii) : bool :=
  is_alpha c || is_digit c || Ascii.eqb c "_".

Fixpoint all (p : ascii -> bool) (s : string) : bool :=
  match s with
  | EmptyString => true
  | String c r => p c && all p r
  end.

(** [c] occurs in [s]. *)
Fixpoint mem (c : ascii) (s : string) : bool :=
  match s with
  | EmptyString => false
  | String d r => Ascii.eqb c d || mem c r
  end.

(** [formula.replace(/\s+/g, '')]: every maximal run of white space is
    replaced by the empty string, i.e. white space is filtered out. *)
Fixpoint remove_whitespace (s : string) : string :=
  match s with
  | EmptyString => EmptyString
  | String c r =>
      if is_space c then remove_whitespace r
      else String c (remove_whitespace r)
  end.

(** The first alternative of [a1|a2|...|an] that matches at the start of
    [s].  A regular-expression alternation is ordered: the leftmost
    alternative that matches wins, whatever its length. *)
Fixpoint first_match (alts : list string) (s : string) : option string :=
  match alts with
  | [] => None
  | a :: rest => if prefix a s then Some a else first_match rest s
  end.

(** [s.replace(new RegExp("(" + alts.join("|") + ")", "g"), repl)] for
    alternatives that are literal text (no regular-expression
    meta-character, which is the case of identifiers).  The scan goes left
    to right; [skip] counts the characters of the current match still to be
    consumed.  After an empty match the scan copies one character and moves
    on, as a global replace does. *)
Fixpoint replace_alts (alts : list string) (repl : string) (skip : nat)
         (s : string) : string :=
  match s with
  | EmptyString =>
      match skip, first_match alts EmptyString with
      | O, Some _ => repl
      | _, _ => EmptyString
      end
  | String c r =>
      match skip with
      | S k => replace_alts alts repl k r
      | O =>
          match first_match alts s with
          | Some a =>
              match String.length a with
              | O => repl ++ String c (replace_alts alts repl 0 r)
              | S k => repl ++ replace_alts alts repl k r
              end
          | None => String c (replace_alts alts repl 0 r)
          end
      end
  end.

Definition replace_all (alts : list string) (repl : string) (s : string) : string :=
  replace_alts alts repl 0 s.

(** Number of leading decimal digits. *)
Fixpoint count_digits (s : string) : nat :=
  match s with
  | String c r => if is_digit c then S (count_digits r) else O
  | EmptyString => O
  end.

Fixpoint drop (n : nat) (s : string) : string :=
  match n, s with
  | O, _ => s
  | S k, String _ r => drop k r
  | S _, EmptyString => EmptyString
  end.

(** Length of the (greedy) match of [\d+(\.\d+)?] at the start of [s];
    [0] when there is none. *)
Definition number_match (s : string) : nat :=
  match count_digits s with
  | O => O
  | S _ as n =>
      match drop n s with
      | String d r =>
          if Ascii.eqb d "." then
            match count_digits r with
            | O => n
            | S _ as m => n + 1 + m
            end
          else n
      | EmptyString => n
      end
  end.

(** [s.replace(/\d+(\.\d+)?/g, 'N')]. *)
Fixpoint replace_numbers (skip : nat) (s : string) : string :=
  match s with
  | EmptyString => EmptyString
  | String c r =>
      match skip with
      | S k => replace_numbers k r
      | O =>
          match number_match s with
          | O => String c (replace_numbers 0 r)
          | S k => String "N" (replace_numbers k r)
          end
      end
  end.

End Str.

(** ** Data model *)

(** A variable binding: the own enumerable string keys of the [variables]
    object with their values, in the order [Object.keys] lists them, which
    for names that are identifiers is the order in which the properties were
    created.  Keys are unique; they are variable names, identifiers made of
    ASCII letters, digits and [_], so that in a regular expression they
    stand for themselves. *)
Definition VariableBinding := list (string * float).

Definition Object_keys (variables : VariableBinding) : list string :=
  map fst variables.

Definition ALLOWED_OPERATORS : list ascii :=
  ["+"; "-"; "*"; "/"; "("; ")"; "."]%char.

Definition ALLOWED_FUNCTIONS : list string :=
  ["min"; "max"; "round"; "floor"; "ceil"].

Definition includes (l : list ascii) (c : ascii) : bool :=
  existsb (Ascii.eqb c) l.

(** ** Validator *)

(** The character test of the final loop of [validateFormula]. *)
Definition allowed_char (c : ascii) : bool :=
  Ascii.eqb c "V" || Ascii.eqb c "N" || Ascii.eqb c "F"
  || includes ALLOWED_OPERATORS c.

(** The text [testFormula] the final loop runs over: variables replaced by
    [V], function names followed by an opening parenthesis by [F(], numbers
    by [N]. *)
Definition testFormula (cleanFormula : string) (variableNames : list string) : string :=
  let t1 :=
    match variableNames with
    | [] => cleanFormula     (* /^$/ cannot match a non-empty text *)
    | _ => Str.replace_all variableNames "V" cleanFormula
    end in
  let t2 :=
    match ALLOWED_FUNCTIONS with
    | [] => t1
    | _ => Str.replace_all (map (fun f => (f ++ "(")%string) ALLOWED_FUNCTIONS) "F(" t1
    end in
  Str.replace_numbers 0 t2.

Definition validateFormula (formula : string) (variables : VariableBinding) : bool :=
  match formula with
  | EmptyString => false                        (* !formula *)
  | _ =>
      let cleanFormula := Str.remove_whitespace formula in
      match cleanFormula with
      | EmptyString => false
      | _ => Str.all allowed_char (testFormula cleanFormula (Object_keys variables))
      end
  end.

(** ** Numbers

    A JavaScript Number is an IEEE-754 binary64 value: Rocq's primitive
    [float]. *)

Module Double.

(** An integer of magnitude at most [2^53], exactly. *)
Definition of_Z (n : Z) : float :=
  SF2Prim (binary_normalize prec emax n 0 false).

(** The value of a decimal literal with digits [m] and [k] digits after
    the point: [m / 10^k] rounded once, to nearest, ties to even. *)
Definition of_decimal (m : Z) (k : nat) : float :=
  match m, Z.pow 10 (Z.of_nat k) with
  | Zpos p, Zpos q =>
      SF2Prim (SFdiv prec emax (S754_finite false p 0) (S754_finite false q 0))
  | _, _ => zero
  end.

(** Rounding to an integral value.  A finite non-zero [x] is
    [n / 2^k] for the integers [n] and [k] read off its mantissa and
    exponent; [pick n k] chooses the integer. *)
Definition to_integral (pick : Z -> Z -> Z) (x : float) : float :=
  match Prim2SF x with
  | S754_finite s m e =>
      if (0 <=? e)%Z then x
      else
        let q := pick (if s then Zneg m else Zpos m) (- e)%Z in
        if (q =? 0)%Z then (if s then neg_zero else zero) else of_Z q
  | _ => x
  end.

(** [Math.floor]: the greatest integral value not above [x]. *)
Definition Math_floor : float -> float :=
  to_integral (fun n k => Z.shiftr n k).

(** [Math.ceil]: the least integral value not below [x]. *)
Definition Math_ceil : float -> float :=
  to_integral (fun n k => Z.opp (Z.shiftr (Z.opp n) k)).

(** [Math.round]: the nearest integral value, a tie going towards
    [+Infinity]; that is the floor of [x + 1/2] computed exactly. *)
Definition Math_round : float -> float :=
  to_integral (fun n k => Z.shiftr (2 * n + Z.pow 2 k) (k + 1)).

Definition is_neg_zero (x : float) : bool := is_zero x && get_sign x.
Definition is_pos_zero (x : float) : bool := is_zero x && negb (get_sign x).

(** [Math.min] on the coerced arguments: [+Infinity] for none, [NaN]
    when one of them is, and [-0] below [+0]. *)
Fixpoint min_from (lowest : float) (xs : list float) : float :=
  match xs with
  | [] => lowest
  | x :: r =>
      if is_nan x then nan
      else if is_neg_zero x && is_pos_zero lowest then min_from x r
      else if (x <? lowest)%float then min_from x r
      else min_from lowest r
  end.

Definition Math_min (xs : list float) : float := min_from infinity xs.

Fixpoint max_from (highest : float) (xs : list float) : float :=
  match xs with
  | [] => highest
  | x :: r =>
      if is_nan x then nan
      else if is_pos_zero x && is_neg_zero highest then max_from x r
      else if (highest <? x)%float then max_from x r
      else max_from highest r
  end.

Definition Math_max (xs : list float) : float := max_from neg_infinity xs.

(** The integer a number is, when it is one. *)
Definition to_integer (x : float) : option Z :=
  match Prim2SF x with
  | S754_zero _ => Some 0%Z
  | S754_finite s m e =>
      let n := if s then Zneg m else Zpos m in
      if (0 <=? e)%Z then Some (n * 2 ^ e)%Z
      else if (Z.land (Zpos m) (Z.ones (- e)) =? 0)%Z then Some (Z.shiftr n (- e))
      else None
  | _ => None
  end.

(** [Number.prototype.toString] without a radix, on the integers from [0]
    to [2^53], which are written with their decimal digits. *)
Definition to_decimal (x : float) : option string :=
  match to_integer x with
  | Some n =>
      if (0 <=? n)%Z && (n <=? 2 ^ 53)%Z
      then Some (NilZero.string_of_uint (N.to_uint (Z.to_N n)))
      else None
  | None => None
  end.

End Double.

(** ** Computations of the host

    A call may return, throw, or leave the modelled fragment of the language
    ([None]); it reads and updates the state of the host. *)

Inductive outcome (E A : Type) : Type :=
| Returns (a : A)
| Throws (e : E).
Arguments Returns {E A} a.
Arguments Throws {E A} e.

Definition M (H E A : Type) : Type := H -> option (outcome E A * H).

Definition ret {H E A} (a : A) : M H E A := fun h => Some (Returns a, h).

Definition throw {H E A} (e : E) : M H E A := fun h => Some (Throws e, h).

Definition unmodelled {H E A} : M H E A := fun _ => None.

Definition bind {H E A B} (c : M H E A) (k : A -> M H E B) : M H E B :=
  fun h =>
    match c h with
    | Some (Returns a, h') => k a h'
    | Some (Throws e, h') => Some (Throws e, h')
    | None => None
    end.

(** [try { c } catch (e) { handler e }]. *)
Definition try_catch {H E E' A} (c : M H E A) (handler : E -> M H E' A) : M H E' A :=
  fun h =>
    match c h with
    | Some (Returns a, h') => Some (Returns a, h')
    | Some (Throws e, h') => handler e h'
    | None => None
    end.

Declare Scope js_scope.
Delimit Scope js_scope with js.
Notation "x <- c ;; k" := (bind c (fun x => k))
  (at level 61, c at next level, right associativity) : js_scope.
Local Open Scope js_scope.

(** ** The fragment of ECMAScript formulas are run in *)

Module JS.

(** What a call can throw: an Error object of the engine, or, from a
    [throw] statement, a value that has no [message] to read, [null] or
    [undefined].  Other values a [throw] statement can throw are outside
    the model. *)
Inductive exn := SyntaxError | TypeError | Nullish.

(** The state of the host, as far as the expressions of this module can
    change it: the source of [Math.random] and the number of values drawn
    from it.  The global functions are the built-in ones throughout; the
    state in which they can be assigned to is that of module [Realm]. *)
Record host := mkHost { entropy : nat -> float; draws : nat }.

(** *** Lexical grammar *)

Inductive token :=
| TNum (x : float)
| TId (name : string)
| TPlus | TMinus | TStar | TSlash | TLParen | TRParen | TDot | TSemi | TAssign.

(** White space that is not a line terminator. *)
Definition is_blank (c : ascii) : bool :=
  let n := nat_of_ascii c in
  (n =? 9)%nat || (n =? 11)%nat || (n =? 12)%nat || (n =? 32)%nat.

Definition is_ident_start (c : ascii) : bool :=
  Str.is_alpha c || Ascii.eqb c "_".

Fixpoint ident_length (s : string) : nat :=
  match s with
  | String c r => if Str.is_ident_part c then S (ident_length r) else O
  | EmptyString => O
  end.

Fixpoint take (n : nat) (s : string) : string :=
  match n, s with
  | S k, String c r => String c (take k r)
  | _, _ => EmptyString
  end.

Definition digit_value (c : ascii) : Z := Z.of_nat (nat_of_ascii c - 48).

(** The integer written by the first [n] characters of [s], continuing
    from [acc]. *)
Fixpoint digits_value (n : nat) (s : string) (acc : Z) : Z :=
  match n, s with
  | S k, String c r => digits_value k r (10 * acc + digit_value c)
  | _, _ => acc
  end.

Definition next_is (p : ascii -> bool) (s : string) : bool :=
  match s with
  | String c _ => p c
  | EmptyString => false
  end.

(** A decimal literal at the start of [s]: its value and length.  The
    forms are [d+], [d+.], [d+.d+] and [.d+].  Left out of the model: an
    integer part of several digits that starts with [0] (legacy octal), and
    a literal directly followed by an identifier character (exponents,
    radix prefixes, separators, BigInt). *)
Definition scan_number (s : string) : option (float * nat) :=
  let n1 := Str.count_digits s in
  let after_int := Str.drop n1 s in
  let leading_zero := (2 <=? n1)%nat && next_is (Ascii.eqb "0") s in
  let '(k, len) :=
    match after_int with
    | String "." r => let n2 := Str.count_digits r in (n2, n1 + 1 + n2)
    | _ => (O, n1)
    end in
  let m := digits_value k (Str.drop (n1 + 1) s) (digits_value n1 s 0) in
  if leading_zero || next_is Str.is_ident_part (Str.drop len s) || (n1 + k =? 0)%nat
  then None
  else Some (Double.of_decimal m k, len).

(** The token list of a source text; [None] when the text has a lexical
    form outside the fragment: a line terminator, a comment, the
    punctuators [++], [--], [**], [...], [==] and [=>], or any other
    character. *)
Fixpoint lex (skip : nat) (s : string) : option (list token) :=
  let cons t k r := option_map (List.cons t) (lex k r) in
  match s with
  | EmptyString => Some []
  | String c r =>
      match skip with
      | S k => lex k r
      | O =>
          if is_blank c then lex 0 r
          else if Str.is_digit c || (Ascii.eqb c "." && next_is Str.is_digit r) then
            match scan_number s with
            | Some (x, len) => cons (TNum x) (len - 1) r
            | None => None
            end
          else if is_ident_start c then
            let len := ident_length s in
            cons (TId (take len s)) (len - 1) r
          else if Ascii.eqb c "+" then
            if next_is (Ascii.eqb "+") r then None else cons TPlus 0 r
          else if Ascii.eqb c "-" then
            if next_is (Ascii.eqb "-") r then None else cons TMinus 0 r
          else if Ascii.eqb c "*" then
            if next_is (Ascii.eqb "*") r then None else cons TStar 0 r
          else if Ascii.eqb c "/" then
            if next_is (Ascii.eqb "/") r || next_is (Ascii.eqb "*") r then None
            else cons TSlash 0 r
          else if Ascii.eqb c "." then
            if next_is (Ascii.eqb ".") r && next_is (Ascii.eqb ".") (Str.drop 1 r)
            then None else cons TDot 0 r
          else if Ascii.eqb c "(" then cons TLParen 0 r
          else if Ascii.eqb c ")" then cons TRParen 0 r
          else if Ascii.eqb c ";" then cons TSemi 0 r
          else if Ascii.eqb c "=" then
            if next_is (Ascii.eqb "=") r || next_is (Ascii.eqb ">") r then None
            else cons TAssign 0 r
          else None
      end
  end.

(** *** Syntactic grammar *)

#[local] Unset Elimination Schemes.

Inductive unop := UPlus | UMinus.
Inductive binop := Add | Sub | Mul | Div.

Inductive expr :=
| ENum (x : float)
| EId (name : string)
| EUnary (op : unop) (a : expr)
| EBin (op : binop) (a b : expr)
| ECall (f : expr) (args : list expr)
| EMember (a : expr) (property : string).

#[local] Set Elimination Schemes.

Inductive statement :=
| SAssign (x : string) (e : expr)           (* x = e; *)
| SReturn (e : option expr).                (* return e; *)

Inductive parsed (A : Type) :=
| POk (a : A) (rest : list token)
| PSyntax                                   (* a SyntaxError *)
| PUnmodelled.
Arguments POk {A} a rest.
Arguments PSyntax {A}.
Arguments PUnmodelled {A}.

(** Reserved words, and the words that are identifiers only in some
    contexts: a function body that uses one is outside the fragment. *)
Definition reserved_words : list string :=
  ["break"; "case"; "catch"; "class"; "const"; "continue"; "debugger";
   "default"; "delete"; "do"; "else"; "enum"; "export"; "extends"; "false";
   "finally"; "for"; "function"; "if"; "import"; "in"; "instanceof"; "new";
   "null"; "return"; "super"; "switch"; "this"; "throw"; "true"; "try";
   "typeof"; "var"; "void"; "while"; "with"; "let"; "static"; "yield";
   "await"; "async"; "implements"; "interface"; "package"; "private";
   "protected"; "public"; "arguments"; "eval"].

Definition is_reserved (x : string) : bool :=
  existsb (String.eqb x) reserved_words.

(** Recursive descent, one function per nonterminal:
    additive > multiplicative > unary > call and member > primary.
    Binary operators associate to the left.  [fuel] bounds the number of
    steps; a parse that runs out of it has no modelled result. *)
Fixpoint parse_additive (fuel : nat) (ts : list token) {struct fuel} : parsed expr :=
  match fuel with
  | O => PUnmodelled
  | S n =>
      match parse_multiplicative n ts with
      | POk a r => additive_rest n a r
      | other => other
      end
  end
with additive_rest (fuel : nat) (a : expr) (ts : list token) {struct fuel} : parsed expr :=
  match fuel with
  | O => PUnmodelled
  | S n =>
      match ts with
      | TPlus :: r =>
          match parse_multiplicative n r with
          | POk b r' => additive_rest n (EBin Add a b) r'
          | other => other
          end
      | TMinus :: r =>
          match parse_multiplicative n r with
          | POk b r' => additive_rest n (EBin Sub a b) r'
          | other => other
          end
      | _ => POk a ts
      end
  end
with parse_multiplicative (fuel : nat) (ts : list token) {struct fuel} : parsed expr :=
  match fuel with
  | O => PUnmodelled
  | S n =>
      match parse_unary n ts with
      | POk a r => multiplicative_rest n a r
      | other => other
      end
  end
with multiplicative_rest (fuel : nat) (a : expr) (ts : list token) {struct fuel} : parsed expr :=
  match fuel with
  | O => PUnmodelled
  | S n =>
      match ts with
      | TStar :: r =>
          match parse_unary n r with
          | POk b r' => multiplicative_rest n (EBin Mul a b) r'
          | other => other
          end
      | TSlash :: r =>
          match parse_unary n r with
          | POk b r' => multiplicative_rest n (EBin Div a b) r'
          | other => other
          end
      | _ => POk a ts
      end
  end
with parse_unary (fuel : nat) (ts : list token) {struct fuel} : parsed expr :=
  match fuel with
  | O => PUnmodelled
  | S n =>
      match ts with
      | TPlus :: r =>
          match parse_unary n r with
          | POk a r' => POk (EUnary UPlus a) r'
          | other => other
          end
      | TMinus :: r =>
          match parse_unary n r with
          | POk a r' => POk (EUnary UMinus a) r'
          | other => other
          end
      | _ =>
          match parse_primary n ts with
          | POk a r => call_rest n a r
          | other => other
          end
      end
  end
with parse_primary (fuel : nat) (ts : list token) {struct fuel} : parsed expr :=
  match fuel with
  | O => PUnmodelled
  | S n =>
      match ts with
      | TNum x :: r => POk (ENum x) r
      | TId x :: r => POk (EId x) r
      | TLParen :: r =>
          match parse_additive n r with
          | POk a (TRParen :: r') => POk a r'
          | POk _ _ => PSyntax
          | other => other
          end
      | TSlash :: _ => PUnmodelled            (* a regular-expression literal *)
      | _ => PSyntax
      end
  end
with call_rest (fuel : nat) (a : expr) (ts : list token) {struct fuel} : parsed expr :=
  match fuel with
  | O => PUnmodelled
  | S n =>
      match ts with
      | TLParen :: TRParen :: r => call_rest n (ECall a []) r
      | TLParen :: r =>
          match parse_additive n r with
          | POk b (TRParen :: r') => call_rest n (ECall a [b]) r'
          | POk _ _ => PSyntax
          | other => other
          end
      | TDot :: TId x :: r => call_rest n (EMember a x) r
      | TDot :: _ => PSyntax
      | _ => POk a ts
      end
  end.

(** A token that takes an expression out of the fragment: a reserved word,
    or the assignment operator. *)
Definition reserved_token (t : token) : bool :=
  match t with
  | TId x => is_reserved x
  | TAssign => true
  | _ => false
  end.

(** The body [return <expression>;] of the function: the expression it
    returns, if any.  A body with a reserved word after [return] is outside
    the fragment. *)
Definition parse_body (ts : list token) : parsed (option expr) :=
  match ts with
  | TId "return" :: r =>
      if existsb reserved_token r then PUnmodelled
      else
        match r with
        | TSemi :: [] => POk None []
        | TSemi :: _ => PUnmodelled
        | _ =>
            match parse_additive (8 * List.length r + 8) r with
            | POk a (TSemi :: []) => POk (Some a) []
            | POk _ (TSemi :: _) => PUnmodelled     (* further statements *)
            | POk _ _ => PSyntax
            | PSyntax => PSyntax
            | PUnmodelled => PUnmodelled
            end
        end
  | _ => PUnmodelled
  end.

(** The body of a function made from a text by a call of [Function]: a
    list of statements [x = e] and [return e] between semicolons, the last
    semicolon being optional.  The fragment has neither strings nor blocks,
    so every semicolon ends a statement. *)
Fixpoint split_statements (ts : list token) : list (list token) :=
  match ts with
  | [] => [[]]
  | TSemi :: r => [] :: split_statements r
  | t :: r =>
      match split_statements r with
      | s :: ss => (t :: s) :: ss
      | [] => [[t]]
      end
  end.

(** An expression that takes up all of [ts]. *)
Definition parse_expression (ts : list token) : parsed expr :=
  if existsb reserved_token ts then PUnmodelled
  else
    match parse_additive (8 * List.length ts + 8) ts with
    | POk e [] => POk e []
    | POk _ _ => PSyntax
    | PSyntax => PSyntax
    | PUnmodelled => PUnmodelled
    end.

Definition parse_statement (ts : list token) : parsed (option statement) :=
  match ts with
  | [] => POk None []                          (* the empty statement *)
  | TId "return" :: [] => POk (Some (SReturn None)) []
  | TId "return" :: r =>
      match parse_expression r with
      | POk e _ => POk (Some (SReturn (Some e))) []
      | PSyntax => PSyntax
      | PUnmodelled => PUnmodelled
      end
  | TId x :: TAssign :: r =>
      if is_reserved x then PUnmodelled
      else
        match parse_expression r with
        | POk e _ => POk (Some (SAssign x e)) []
        | PSyntax => PSyntax
        | PUnmodelled => PUnmodelled
        end
  | _ => PUnmodelled                           (* any other statement *)
  end.

(** A statement outside the fragment leaves the whole body without a
    modelled result; otherwise one SyntaxError is a SyntaxError of the
    body. *)
Fixpoint parse_statements (chunks : list (list token)) : parsed (list statement) :=
  match chunks with
  | [] => POk [] []
  | c :: r =>
      match parse_statement c, parse_statements r with
      | PUnmodelled, _ => PUnmodelled
      | _, PUnmodelled => PUnmodelled
      | PSyntax, _ => PSyntax
      | _, PSyntax => PSyntax
      | POk None _, POk ss _ => POk ss []
      | POk (Some st) _, POk ss _ => POk (st :: ss) []
      end
  end.

Definition parse_program (ts : list token) : parsed (list statement) :=
  parse_statements (split_statements ts).

(** *** Evaluation *)

(** The built-in functions of the model: those of [Math] the evaluator
    hands to a formula and [Math.random], the global functions [isNaN] and
    [isFinite], the constructors [Number], [String] and [Function] called as
    functions, [Number.prototype.toString] and [String.fromCharCode]. *)
Inductive builtin :=
| Math_min | Math_max | Math_round | Math_floor | Math_ceil | Math_random
| Global_isNaN | Global_isFinite
| Number_constructor | String_constructor | Function_constructor
| Number_toString | String_fromCharCode.

Inductive value :=
| VUndefined
| VNumber (x : float)
| VBuiltin (b : builtin)
| VMath                                     (* the Math object *)
| VBoolean (b : bool)
| VString (s : string)
| VFunction (body : list statement).        (* made by [Function], no parameter *)

Definition env := list (string * value).

Fixpoint lookup (x : string) (e : env) : option value :=
  match e with
  | [] => None
  | (y, v) :: r => if String.eqb x y then Some v else lookup x r
  end.

(** The properties of the global object that are modelled. *)
Definition global (x : string) : option value :=
  if String.eqb x "NaN" then Some (VNumber nan)
  else if String.eqb x "Infinity" then Some (VNumber infinity)
  else if String.eqb x "undefined" then Some VUndefined
  else if String.eqb x "Math" then Some VMath
  else None.

Definition math_property (x : string) : option builtin :=
  if String.eqb x "min" then Some Math_min
  else if String.eqb x "max" then Some Math_max
  else if String.eqb x "round" then Some Math_round
  else if String.eqb x "floor" then Some Math_floor
  else if String.eqb x "ceil" then Some Math_ceil
  else if String.eqb x "random" then Some Math_random
  else None.

(** [ToNumber], on the values whose conversion is modelled. *)
Definition to_number (v : value) : M host exn float :=
  match v with
  | VNumber x => ret x
  | VUndefined => ret nan
  | _ => unmodelled
  end.

Fixpoint to_numbers (vs : list value) : M host exn (list float) :=
  match vs with
  | [] => ret []
  | v :: r => x <- to_number v ;; xs <- to_numbers r ;; ret (x :: xs)
  end.

Definition first_argument (vs : list value) : value :=
  match vs with
  | v :: _ => v
  | [] => VUndefined
  end.

(** The host after one more number was drawn. *)
Definition advance (h : host) : host := mkHost (entropy h) (S (draws h)).

Definition random : M host exn float :=
  fun h => Some (Returns (entropy h (draws h)), advance h).

Definition apply_builtin (b : builtin) (vs : list value) : M host exn value :=
  match b with
  | Math_min => xs <- to_numbers vs ;; ret (VNumber (Double.Math_min xs))
  | Math_max => xs <- to_numbers vs ;; ret (VNumber (Double.Math_max xs))
  | Math_round => x <- to_number (first_argument vs) ;; ret (VNumber (Double.Math_round x))
  | Math_floor => x <- to_number (first_argument vs) ;; ret (VNumber (Double.Math_floor x))
  | Math_ceil => x <- to_number (first_argument vs) ;; ret (VNumber (Double.Math_ceil x))
  | Math_random => x <- random ;; ret (VNumber x)
  | _ => unmodelled
  end.

Definition apply_unop (op : unop) (x : float) : float :=
  match op with
  | UPlus => x
  | UMinus => (- x)%float
  end.

Definition apply_binop (op : binop) (x y : float) : float :=
  match op with
  | Add => (x + y)%float
  | Sub => (x - y)%float
  | Mul => (x * y)%float
  | Div => (x / y)%float
  end.

Fixpoint eval (rho : env) (e : expr) {struct e} : M host exn value :=
  match e with
  | ENum x => ret (VNumber x)
  | EId x =>
      match lookup x rho with
      | Some v => ret v
      | None =>
          match global x with
          | Some v => ret v
          | None => unmodelled
          end
      end
  | EUnary op a =>
      v <- eval rho a ;;
      x <- to_number v ;;
      ret (VNumber (apply_unop op x))
  | EBin op a b =>
      va <- eval rho a ;;
      vb <- eval rho b ;;
      x <- to_number va ;;
      y <- to_number vb ;;
      ret (VNumber (apply_binop op x y))
  | ECall f args =>
      vf <- eval rho f ;;
      vs <- (fix eval_args (l : list expr) : M host exn (list value) :=
               match l with
               | [] => ret []
               | a :: r => v <- eval rho a ;; vs <- eval_args r ;; ret (v :: vs)
               end) args ;;
      match vf with
      | VBuiltin b => apply_builtin b vs
      | VFunction _ => unmodelled
      | _ => throw TypeError
      end
  | EMember a x =>
      v <- eval rho a ;;
      match v with
      | VMath =>
          match math_property x with
          | Some b => ret (VBuiltin b)
          | None => unmodelled
          end
      | VUndefined => throw TypeError
      | _ => unmodelled
      end
  end.

(** *** The Function constructor *)

Definition valid_parameter (x : string) : bool :=
  next_is is_ident_start x && Str.all Str.is_ident_part x && negb (is_reserved x).

(** Parameters bound to arguments, a missing argument being [undefined];
    of two parameters of one name the later is the one in scope. *)
Fixpoint bind_parameters (params : list string) (args : list value) (rho : env) : env :=
  match params with
  | [] => rho
  | x :: r =>
      match args with
      | v :: vs => bind_parameters r vs ((x, v) :: rho)
      | [] => bind_parameters r [] ((x, VUndefined) :: rho)
      end
  end.

(** [new Function(...params, body)(...args)]: the body is parsed when the
    function is made (a SyntaxError is thrown then), and run when it is
    called. *)
Definition newFunction (params : list string) (body : string) (args : list value)
  : M host exn value :=
  if forallb valid_parameter params then
    match lex 0 body with
    | None => unmodelled
    | Some ts =>
        match parse_body ts with
        | PUnmodelled => unmodelled
        | PSyntax => throw SyntaxError
        | POk None _ => ret VUndefined
        | POk (Some e) _ => eval (bind_parameters params args []) e
        end
    end
  else unmodelled.

End JS.

(** ** The same expressions on a host whose globals can be assigned to

    [isNaN] and [isFinite] are writable properties of the global object, and
    a formula can reach the [Function] constructor through the
    [constructor] property of any value: a function made from a text runs in
    the global scope, where an assignment to [isNaN] rebinds it.  Module
    [Realm] evaluates the expressions of module [JS] with what this takes:
    booleans and strings, the properties [constructor], [toString] and
    [fromCharCode], [Function] called on a text, and, in the body of the
    function it makes, assignments to the two globals.  The state records
    what the two names are bound to. *)

Module Realm.

Import JS.

Record host := mkHost {
  base : JS.host;                           (* the source of Math.random *)
  bound_isNaN : value;                      (* the value of the global isNaN *)
  bound_isFinite : value                    (* the value of the global isFinite *)
}.

(** The host at the start: the two names are bound to the built-in
    functions. *)
Definition standard (h : JS.host) : host :=
  mkHost h (VBuiltin Global_isNaN) (VBuiltin Global_isFinite).

(** A computation of module [JS], which leaves the globals alone. *)
Definition lift {E A : Type} (c : M JS.host E A) : M host E A :=
  fun r =>
    match c (base r) with
    | Some (o, h') => Some (o, mkHost h' (bound_isNaN r) (bound_isFinite r))
    | None => None
    end.

(** [ToNumber], on the primitive values whose conversion is modelled. *)
Definition to_number (v : value) : M host exn float :=
  match v with
  | VNumber x => ret x
  | VUndefined => ret nan
  | VBoolean b => ret (if b then 1%float else 0%float)
  | _ => unmodelled
  end.

(** [ToBoolean] *)
Definition to_boolean (v : value) : bool :=
  match v with
  | VUndefined => false
  | VNumber x => negb (is_zero x || is_nan x)
  | VBoolean b => b
  | VString s => negb (String.eqb s EmptyString)
  | VBuiltin _ | VMath | VFunction _ => true
  end.

(** The text made of the characters of the given codes; the codes from 0
    to 127 are modelled. *)
Fixpoint from_char_codes (vs : list value) : M host exn string :=
  match vs with
  | [] => ret EmptyString
  | v :: r =>
      x <- to_number v ;;
      match Double.to_integer x with
      | Some n =>
          if (0 <=? n)%Z && (n <? 128)%Z then
            s <- from_char_codes r ;;
            ret (String (ascii_of_nat (Z.to_nat n)) s)
          else unmodelled
      | None => unmodelled
      end
  end.

(** [Function(body)]: the body is parsed; the function made has no
    parameter.  [Function()] makes a function with an empty body. *)
Definition make_function (vs : list value) : M host exn value :=
  match vs with
  | [] => ret (VFunction [])
  | [VString body] =>
      match lex 0 body with
      | None => unmodelled
      | Some ts =>
          match parse_program ts with
          | POk statements _ => ret (VFunction statements)
          | PSyntax => throw SyntaxError
          | PUnmodelled => unmodelled
          end
      end
  | _ => unmodelled
  end.

Definition apply_builtin (b : builtin) (this : value) (vs : list value)
  : M host exn value :=
  match b with
  | Math_min | Math_max | Math_round | Math_floor | Math_ceil | Math_random =>
      lift (JS.apply_builtin b vs)
  | Global_isNaN =>
      x <- to_number (first_argument vs) ;; ret (VBoolean (is_nan x))
  | Global_isFinite =>
      x <- to_number (first_argument vs) ;; ret (VBoolean (is_finite x))
  | Number_constructor =>
      match vs with
      | [] => ret (VNumber 0)
      | v :: _ => x <- to_number v ;; ret (VNumber x)
      end
  | String_constructor => unmodelled
  | Function_constructor => make_function vs
  | Number_toString =>
      match this, vs with
      | VNumber x, [] =>
          match Double.to_decimal x with
          | Some s => ret (VString s)
          | None => unmodelled
          end
      | _, _ => unmodelled
      end
  | String_fromCharCode => s <- from_char_codes vs ;; ret (VString s)
  end.

(** The value of the property [x] of [v]: own properties, and those
    inherited from [Number.prototype], [String.prototype] and
    [Function.prototype] that are modelled. *)
Definition get (v : value) (x : string) : M host exn value :=
  match v with
  | VUndefined => throw TypeError
  | VMath =>
      match math_property x with
      | Some b => ret (VBuiltin b)
      | None => unmodelled
      end
  | VNumber _ =>
      if String.eqb x "constructor" then ret (VBuiltin Number_constructor)
      else if String.eqb x "toString" then ret (VBuiltin Number_toString)
      else unmodelled
  | VString _ =>
      if String.eqb x "constructor" then ret (VBuiltin String_constructor)
      else unmodelled
  | VBoolean _ => unmodelled
  | VBuiltin b =>
      if String.eqb x "constructor" then ret (VBuiltin Function_constructor)
      else
        match b with
        | String_constructor =>
            if String.eqb x "fromCharCode" then ret (VBuiltin String_fromCharCode)
            else unmodelled
        | _ => unmodelled
        end
  | VFunction _ =>
      if String.eqb x "constructor" then ret (VBuiltin Function_constructor)
      else unmodelled
  end.

(** An identifier: a parameter, or a property of the global object. *)
Definition identifier (rho : env) (x : string) : M host exn value :=
  match lookup x rho with
  | Some v => ret v
  | None =>
      if String.eqb x "isNaN" then fun r => Some (Returns (bound_isNaN r), r)
      else if String.eqb x "isFinite" then fun r => Some (Returns (bound_isFinite r), r)
      else if String.eqb x "Number" then ret (VBuiltin Number_constructor)
      else if String.eqb x "String" then ret (VBuiltin String_constructor)
      else if String.eqb x "Function" then ret (VBuiltin Function_constructor)
      else
        match global x with
        | Some v => ret v
        | None => unmodelled
        end
  end.

(** [x = v] in a function made by [Function], which has neither parameters
    nor variables of its own: an assignment to a property of the global
    object.  Those to [isNaN] and [isFinite] are modelled. *)
Definition assign (x : string) (v : value) : M host exn unit :=
  if String.eqb x "isNaN" then
    fun r => Some (Returns tt, mkHost (base r) v (bound_isFinite r))
  else if String.eqb x "isFinite" then
    fun r => Some (Returns tt, mkHost (base r) (bound_isNaN r) v)
  else unmodelled.

(** [+] joins two strings; the operators are otherwise those of numbers. *)
Definition binary (op : binop) (a b : value) : M host exn value :=
  match op, a, b with
  | Add, VString s, VString t => ret (VString (s ++ t))
  | _, _, _ =>
      x <- to_number a ;; y <- to_number b ;; ret (VNumber (apply_binop op x y))
  end.

(** Evaluation of an expression, call of a function and run of the body of
    a made function.  [fuel] bounds the depth of the evaluation; one that
    runs out of it has no modelled result. *)
Fixpoint eval (fuel : nat) (rho : env) (e : expr) {struct fuel} : M host exn value :=
  match fuel with
  | O => unmodelled
  | S n =>
      match e with
      | ENum x => ret (VNumber x)
      | EId x => identifier rho x
      | EUnary op a =>
          v <- eval n rho a ;;
          x <- to_number v ;;
          ret (VNumber (apply_unop op x))
      | EBin op a b =>
          va <- eval n rho a ;;
          vb <- eval n rho b ;;
          binary op va vb
      | ECall f args =>
          callee <- match f with
                    | EMember a x =>
                        this <- eval n rho a ;;
                        vf <- get this x ;;
                        ret (this, vf)
                    | _ =>
                        vf <- eval n rho f ;;
                        ret (VUndefined, vf)
                    end ;;
          vs <- (fix eval_args (l : list expr) : M host exn (list value) :=
                   match l with
                   | [] => ret []
                   | a :: r => v <- eval n rho a ;; vs <- eval_args r ;; ret (v :: vs)
                   end) args ;;
          call n (snd callee) (fst callee) vs
      | EMember a x =>
          v <- eval n rho a ;;
          get v x
      end
  end
with call (fuel : nat) (vf this : value) (vs : list value) {struct fuel}
  : M host exn value :=
  match fuel with
  | O => unmodelled
  | S n =>
      match vf with
      | VBuiltin b => apply_builtin b this vs
      | VFunction body => run n body
      | _ => throw TypeError
      end
  end
with run (fuel : nat) (body : list statement) {struct fuel} : M host exn value :=
  match fuel with
  | O => unmodelled
  | S n =>
      match body with
      | [] => ret VUndefined
      | SAssign x e :: rest =>
          v <- eval n [] e ;;
          _ <- assign x v ;;
          run n rest
      | SReturn None :: _ => ret VUndefined
      | SReturn (Some e) :: _ => eval n [] e
      end
  end.

(** The depth of evaluation granted to one call from [evaluateFormula]. *)
Definition steps : nat := 1024.

(** [new Function(...params, body)(...args)], as [JS.newFunction]. *)
Definition newFunction (params : list string) (body : string) (args : list value)
  : M host exn value :=
  if forallb valid_parameter params then
    match lex 0 body with
    | None => unmodelled
    | Some ts =>
        match parse_body ts with
        | PUnmodelled => unmodelled
        | PSyntax => throw SyntaxError
        | POk None _ => ret VUndefined
        | POk (Some e) _ => eval steps (bind_parameters params args []) e
        end
    end
  else unmodelled.

(** [f(x)] read as a condition, for [f] the value of a global. *)
Definition condition (f : host -> value) (x : float) : M host exn bool :=
  fun r => (v <- call steps (f r) VUndefined [VNumber x] ;; ret (to_boolean v)) r.

End Realm.
(** ** Evaluator *)

(** What is thrown inside the [try] block of [evaluateFormula]: an exception
    of the engine, or the block's own
    "Formula evaluation did not produce a valid number". *)
Inductive cause :=
| Thrown (e : JS.exn)
| NotValidNumber.

(** The errors [evaluateFormula] throws: "Invalid formula: ..." before the
    [try] block, "Error evaluating formula ...: <cause>" from its [catch]
    clause, and the TypeError the [catch] clause itself raises when it reads
    [error.message] of a thrown [null] or [undefined]. *)
Inductive Error :=
| InvalidFormula (formula : string)
| EvaluationError (formula : string) (c : cause)
| MessageTypeError.

(** The global functions [isNaN] and [isFinite], as [evaluateFormula] calls
    them on the number the function returned.  They are properties of the
    global object, which can be assigned to: what a call does is for the
    host to say, in its current state.  The value of the call is read as a
    condition. *)
Class Globals (host : Type) := {
  isNaN : float -> M host JS.exn bool;
  isFinite : float -> M host JS.exn bool
}.

(** On the host of module [JS] the two names are never assigned to (the
    fragment has no assignment): they are the built-in functions. *)
#[export] Instance standard_globals : Globals JS.host := {
  isNaN x := ret (is_nan x);
  isFinite x := ret (is_finite x)
}.

(** On the host of module [Realm] they are what the two names are bound to
    when the call is made. *)
#[export] Instance realm_globals : Globals Realm.host := {
  isNaN := Realm.condition Realm.bound_isNaN;
  isFinite := Realm.condition Realm.bound_isFinite
}.

(** A plain object with own properties in creation order. *)
Definition object := list (string * JS.value).

(** [{ ...variables }] *)
Definition spread (variables : VariableBinding) : object :=
  map (fun kv => (fst kv, JS.VNumber (snd kv))) variables.

(** [o[k] = v]: an existing property keeps its place. *)
Fixpoint Object_set (o : object) (k : string) (v : JS.value) : object :=
  match o with
  | [] => [(k, v)]
  | (k', v') :: r =>
      if String.eqb k k' then (k', v) :: r else (k', v') :: Object_set r k v
  end.

(** The evaluation context of a formula: the variables, then the allowed
    mathematical functions. *)
Definition make_context (variables : VariableBinding) : object :=
  let context := spread variables in
  let context := Object_set context "min" (JS.VBuiltin JS.Math_min) in
  let context := Object_set context "max" (JS.VBuiltin JS.Math_max) in
  let context := Object_set context "round" (JS.VBuiltin JS.Math_round) in
  let context := Object_set context "floor" (JS.VBuiltin JS.Math_floor) in
  let context := Object_set context "ceil" (JS.VBuiltin JS.Math_ceil) in
  context.

(** A cabinet part: each formula is a string, or absent ([null]). *)
Record part := mkPart {
  formula_width : option string;
  formula_height : option string;
  formula_depth : option string
}.

Record dimensions := mkDimensions {
  width : JS.value;
  height : JS.value;
  depth : JS.value
}.

(** The test [if (part.formula_x)]: a non-empty string is truthy. *)
Definition present (formula : option string) : option string :=
  match formula with
  | Some (String c r) => Some (String c r)
  | _ => None
  end.

Section Evaluator.

(** The host: its state, its global functions, and its Function constructor
    applied to the parameter names and the body, the function it makes being
    called at once on the arguments. *)
Context {host : Type} {globals : Globals host}.
Variable new_Function : list string -> string -> list JS.value -> M host JS.exn JS.value.

(** A call into the host from inside the [try] block. *)
Definition inside_try {A : Type} (call : M host JS.exn A) : M host cause A :=
  try_catch call (fun e => throw (Thrown e)).

Definition evalFunction (formula : string) (context : object) : M host cause JS.value :=
  let paramNames := map fst context in
  let paramValues := map snd context in
  try_catch (new_Function paramNames ("return " ++ formula ++ ";")%string paramValues)
            (fun e => throw (Thrown e)).

Definition evaluateFormula (formula : string) (variables : VariableBinding)
  : M host Error float :=
  if negb (validateFormula formula variables) then
    throw (InvalidFormula formula)
  else
    try_catch
      (let context := make_context variables in
       result <- evalFunction formula context ;;
       match result with
       | JS.VNumber x =>
           (* isNaN(result) || !isFinite(result) *)
           not_a_number <- inside_try (isNaN x) ;;
           if not_a_number then throw NotValidNumber
           else
             finite <- inside_try (isFinite x) ;;
             if negb finite then throw NotValidNumber
             else ret x
       | _ => throw NotValidNumber            (* typeof result !== 'number' *)
       end)
      (fun error =>
         match error with
         | Thrown JS.Nullish => throw MessageTypeError      (* error.message *)
         | _ => throw (EvaluationError formula error)
         end).

(** One axis of [evaluatePartDimensions]:
    [if (formula) { dimensions.axis = evaluateFormula(formula, variables); }] *)
Definition axis (formula : option string) (variables : VariableBinding)
           (current : JS.value) : M host Error JS.value :=
  match present formula with
  | Some f => x <- evaluateFormula f variables ;; ret (JS.VNumber x)
  | None => ret current
  end.

Definition evaluatePartDimensions (p : part) (variables : VariableBinding)
  : M host Error dimensions :=
  let dimensions := mkDimensions (JS.VNumber 0) (JS.VNumber 0) (JS.VNumber 0) in
  w <- axis (formula_width p) variables (width dimensions) ;;
  let dimensions := mkDimensions w (height dimensions) (depth dimensions) in
  h <- axis (formula_height p) variables (height dimensions) ;;
  let dimensions := mkDimensions (width dimensions) h (depth dimensions) in
  d <- axis (formula_depth p) variables (depth dimensions) ;;
  let dimensions := mkDimensions (width dimensions) (height dimensions) d in
  ret dimensions.

End Evaluator.

(** A host whose [Math.random] yields 0.25, 0.5, 0.25, 0.5, ... *)
Definition host0 : JS.host :=
  JS.mkHost (fun n => if Nat.even n then 0.25%float else 0.5%float) 0.

(** The identifiers a formula mentions: the identifier tokens of its text. *)
Definition identifiers (formula : string) : list string :=
  match JS.lex 0 formula with
  | Some ts =>
      flat_map (fun t => match t with JS.TId x => [x] | _ => [] end) ts
  | None => []
  end.

Definition mentions (x : string) (l : list string) : bool :=
  existsb (String.eqb x) l.

(** [x] is an identifier of [formula] that is neither a variable nor an
    allowed function name. *)
Definition unbound_identifier (formula : string) (variables : VariableBinding)
           (x : string) : bool :=
  mentions x (identifiers formula)
  && negb (mentions x (Object_keys variables))
  && negb (mentions x ALLOWED_FUNCTIONS).

(** What one axis of a returned record holds: the number [0] the record
    starts with when the formula is absent, and otherwise the number
    [evaluateFormula] returns for the formula, from host state [h] to [h']. *)
Definition axis_result {host : Type} {globals : Globals host}
           (new_Function : list string -> string -> list JS.value -> M host JS.exn JS.value)
           (formula : option string) (variables : VariableBinding)
           (h : host) (v : JS.value) (h' : host) : Prop :=
  match present formula with
  | Some f =>
      exists x, evaluateFormula new_Function f variables h = Some (Returns x, h')
                /\ v = JS.VNumber x
  | None => v = JS.VNumber 0 /\ h' = h
  end.

(** No key is a proper prefix of another one. *)
Definition prefix_free (l : list string) : Prop :=
  forall a b, In a l -> In b l -> prefix a b = true -> a = b.

(** The value bound to a variable. *)
Fixpoint variable_value (x : string) (variables : VariableBinding) : option float :=
  match variables with
  | [] => None
  | (y, w) :: r => if String.eqb x y then Some w else variable_value x r
  end.

(** An axis whose formula is present and whose evaluation throws [e],
    from host state [h] to [h']. *)
Definition axis_throws {host : Type} {globals : Globals host}
           (new_Function : list string -> string -> list JS.value -> M host JS.exn JS.value)
           (formula : option string) (variables : VariableBinding)
           (h : host) (e : Error) (h' : host) : Prop :=
  match present formula with
  | Some f => evaluateFormula new_Function f variables h = Some (Throws e, h')
  | None => False
  end.

(** White space, digits and the allowed operators. *)
Definition lexical_char (c : ascii) : bool :=
  Str.is_space c || Str.is_digit c || includes ALLOWED_OPERATORS c.

(** A non-empty name made of letters, digits and [_]. *)
Definition plain_name (k : string) : bool :=
  negb (String.eqb k EmptyString) && Str.all Str.is_ident_part k.

(** Names written one after the other, with nothing in between. *)
Fixpoint concat_names (ks : list string) : string :=
  match ks with
  | [] => EmptyString
  | k :: r => (k ++ concat_names r)%string
  end.

(** The text made of [n] letters [V]. *)
Fixpoint marks (n : nat) : string :=
  match n with
  | O => EmptyString
  | S k => String "V" (marks k)
  end.

(** The identifiers an expression reads (the name after a point is a
    property name, not an identifier). *)
Fixpoint expr_identifiers (e : JS.expr) : list string :=
  match e with
  | JS.ENum _ => []
  | JS.EId x => [x]
  | JS.EUnary _ a => expr_identifiers a
  | JS.EBin _ a b => expr_identifiers a ++ expr_identifiers b
  | JS.ECall f args =>
      expr_identifiers f
      ++ (fix of_args (l : list JS.expr) : list string :=
            match l with
            | [] => []
            | a :: r => expr_identifiers a ++ of_args r
            end) args
  | JS.EMember a _ => expr_identifiers a
  end.

(** The identifiers of the arguments of a call, and their evaluation from
    left to right, as [expr_identifiers] and [JS.eval] go through them. *)
Definition args_identifiers : list JS.expr -> list string :=
  fix of_args (l : list JS.expr) : list string :=
    match l with
    | [] => []
    | a :: r => expr_identifiers a ++ of_args r
    end.

Definition eval_args (rho : JS.env) : list JS.expr -> M JS.host JS.exn (list JS.value) :=
  fix eval_args (l : list JS.expr) : M JS.host JS.exn (list JS.value) :=
    match l with
    | [] => ret []
    | a :: r => v <- JS.eval rho a ;; vs <- eval_args r ;; ret (v :: vs)
    end.

(** The arguments of a call as [Realm.eval] goes through them. *)
Definition realm_eval_args (fuel : nat) (rho : JS.env)
  : list JS.expr -> M Realm.host JS.exn (list JS.value) :=
  fix eval_args (l : list JS.expr) : M Realm.host JS.exn (list JS.value) :=
    match l with
    | [] => ret []
    | a :: r => v <- Realm.eval fuel rho a ;; vs <- eval_args r ;; ret (v :: vs)
    end.

(** The number of nodes of an expression, a call counting for two. *)
Fixpoint expr_size (e : JS.expr) : nat :=
  match e with
  | JS.ENum _ => 1
  | JS.EId _ => 1
  | JS.EUnary _ a => S (expr_size a)
  | JS.EBin _ a b => S (expr_size a + expr_size b)
  | JS.ECall f args =>
      S (S (expr_size f
            + (fix of_args (l : list JS.expr) : nat :=
                 match l with
                 | [] => 0
                 | a :: r => expr_size a + of_args r
                 end) args))
  | JS.EMember a _ => S (expr_size a)
  end.

Definition args_size : list JS.expr -> nat :=
  fix of_args (l : list JS.expr) : nat :=
    match l with
    | [] => 0
    | a :: r => expr_size a + of_args r
    end.

(** The expression the function made from a formula returns, when the
    body [return <formula>;] is one of the fragment and has no syntax
    error. *)
Definition formula_expression (formula : string) : option JS.expr :=
  match JS.lex 0 ("return " ++ formula ++ ";")%string with
  | Some ts =>
      match JS.parse_body ts with
      | JS.POk (Some e) _ => Some e
      | _ => None
      end
  | None => None
  end.

(** The size of the expression of a formula. *)
Definition formula_size (formula : string) : nat :=
  match formula_expression formula with
  | Some e => expr_size e
  | None => 0
  end.

(** [x] is a variable of the binding or an allowed function name. *)
Definition bound_name (variables : VariableBinding) (x : string) : bool :=
  mentions x (Object_keys variables) || mentions x ALLOWED_FUNCTIONS.

(** The callee of a call in an arithmetic expression: a name, which may
    be that of an allowed function, or an expression [ok] holds of. *)
Definition callee (ok : JS.expr -> bool) (f : JS.expr) : bool :=
  match f with
  | JS.EId _ => true
  | _ => ok f
  end.

(** An arithmetic expression: numbers, names, signs, the four operators
    and calls.  There is no member access, and the name of an allowed
    function stands nowhere but in front of the arguments of a call. *)
Fixpoint arithmetic (e : JS.expr) : bool :=
  match e with
  | JS.ENum _ => true
  | JS.EId x => negb (mentions x ALLOWED_FUNCTIONS)
  | JS.EUnary _ a => arithmetic a
  | JS.EBin _ a b => arithmetic a && arithmetic b
  | JS.ECall f args =>
      callee arithmetic f
      && (fix of_args (l : list JS.expr) : bool :=
            match l with
            | [] => true
            | a :: r => arithmetic a && of_args r
            end) args
  | JS.EMember _ _ => false
  end.

Definition arithmetic_args : list JS.expr -> bool :=
  fix of_args (l : list JS.expr) : bool :=
    match l with
    | [] => true
    | a :: r => arithmetic a && of_args r
    end.

(** One of the five functions the evaluator hands to a formula. *)
Definition allowed_function (b : JS.builtin) : bool :=
  match b with
  | JS.Math_min | JS.Math_max | JS.Math_round | JS.Math_floor | JS.Math_ceil => true
  | _ => false
  end.

(** The evaluation of [e] in [rho] does not depend on the state of the
    host and leaves it as it is; it yields a number or fails with a
    TypeError. *)
Definition settles (rho : JS.env) (e : JS.expr) : Prop :=
  exists o,
    (forall h, JS.eval rho e h = Some (o, h))
    /\ (o = Throws JS.TypeError \/ exists x, o = Returns (JS.VNumber x)).

(** The default parts the migration [createCabinetPartsTables] inserts into
    [cabinet_parts], with their three default formulas. *)
Definition default_parts : list (string * part) :=
  [("Top Panel", mkPart (Some "W - 2*T") (Some "D") (Some "T"));
   ("Bottom Panel", mkPart (Some "W - 2*T") (Some "D") (Some "T"));
   ("Side Panel - Left", mkPart (Some "D") (Some "H") (Some "T"));
   ("Side Panel - Right", mkPart (Some "D") (Some "H") (Some "T"));
   ("Back Panel", mkPart (Some "W - 2*T") (Some "H - 2*T") (Some "T_back"));
   ("Door - Single", mkPart (Some "W") (Some "H") (Some "T_door"));
   ("Door - Left", mkPart (Some "W/2 - 0.5") (Some "H") (Some "T_door"));
   ("Door - Right", mkPart (Some "W/2 - 0.5") (Some "H") (Some "T_door"));
   ("Drawer Front", mkPart (Some "W") (Some "H_drawer") (Some "T_door"));
   ("Drawer Side - Left", mkPart (Some "D_drawer - 2*T") (Some "H_drawer - T") (Some "T"));
   ("Drawer Side - Right", mkPart (Some "D_drawer - 2*T") (Some "H_drawer - T") (Some "T"));
   ("Drawer Back", mkPart (Some "W - 2*T") (Some "H_drawer - T") (Some "T"));
   ("Drawer Bottom", mkPart (Some "W - 2*T") (Some "D_drawer - 2*T") (Some "T_bottom"));
   ("Shelf", mkPart (Some "W - 2*T - 0.125") (Some "D - 0.5") (Some "T"))].

(** The variables the default formulas use, the longer names first. *)
Definition variables_long_first : VariableBinding :=
  [("T_bottom", 0.25%float); ("D_drawer", 11%float); ("H_drawer", 6%float);
   ("T_door", 0.75%float); ("T_back", 0.25%float);
   ("W", 24%float); ("H", 30%float); ("D", 12%float); ("T", 0.75%float)].

(** The same variables, the short names first. *)
Definition variables_short_first : VariableBinding :=
  [("W", 24%float); ("H", 30%float); ("D", 12%float); ("T", 0.75%float);
   ("T_back", 0.25%float); ("T_door", 0.75%float); ("H_drawer", 6%float);
   ("D_drawer", 11%float); ("T_bottom", 0.25%float)].

(** How a binary operator is written. *)
Definition binop_text (op : JS.binop) : string :=
  match op with
  | JS.Add => "+"
  | JS.Sub => "-"
  | JS.Mul => "*"
  | JS.Div => "/"
  end.

(** What [evaluateFormula] makes of a number the function returned. *)
Definition checked (formula : string) (r : float) : outcome Error float :=
  if is_nan r || negb (is_finite r)
  then Throws (EvaluationError formula NotValidNumber)
  else Returns r.

(** Every formula of the part that is present passes validation. *)
Definition part_valid (variables : VariableBinding) (p : part) : bool :=
  forallb (fun formula =>
             match present formula with
             | Some f => validateFormula f variables
             | None => true
             end)
          [formula_width p; formula_height p; formula_depth p].

(** The dimensions of a part, when all three are numbers. *)
Definition part_dimensions (variables : VariableBinding) (p : part)
  : option (float * float * float) :=
  match evaluatePartDimensions JS.newFunction p variables host0 with
  | Some (Returns (mkDimensions (JS.VNumber w) (JS.VNumber h) (JS.VNumber d)), _) =>
      Some (w, h, d)
  | _ => None
  end.

(** ** Sample inputs *)

(** A formula that leaves the evaluator's context.  [spelled s] is the text
    of an expression whose value is the string [s], written with the
    variables [W], [toString], [constructor] and [fromCharCode], digits and
    the allowed operators only: the sum of the one-character strings
    [W.toString().constructor.fromCharCode(c)], where [W.toString()] is a
    string, its [constructor] is [String], and [c] is the code of the
    character. *)
Definition spelled_character (c : ascii) : string :=
  "W.toString().constructor.fromCharCode("
  ++ NilZero.string_of_uint (N.to_uint (N.of_nat (nat_of_ascii c))) ++ ")".

Fixpoint spelled (s : string) : string :=
  match s with
  | EmptyString => EmptyString
  | String c EmptyString => spelled_character c
  | String c r => spelled_character c ++ "+" ++ spelled r
  end.

(** The body of the function the formula makes and calls: it assigns the
    built-in [isFinite] to [isNaN] and [Number] to [isFinite], and returns
    [Infinity]. *)
Definition escape_body : string := "isNaN=isFinite;isFinite=Number;return 1/0".

(** [W.constructor] is [Number], whose [constructor] is [Function]. *)
Definition escape_formula : string :=
  "W.constructor.constructor(" ++ spelled escape_body ++ ")()".

Definition escape_variables : VariableBinding :=
  [("W", 24%float); ("constructor", 1%float); ("toString", 2%float);
   ("fromCharCode", 3%float)].

(** The host after the function made from [escape_body] has run. *)
Definition escaped_host : Realm.host :=
  Realm.mkHost host0 (JS.VBuiltin JS.Global_isFinite) (JS.VBuiltin JS.Number_constructor).

(** An engine that is defined nowhere: a call of it would leave the
    computation without a result. *)
Definition no_engine : list string -> string -> list JS.value -> M JS.host JS.exn JS.value :=
  fun _ _ _ => unmodelled.

Definition door_without_depth : part :=
  mkPart (Some "W") (Some "W - 2*T") None.

Definition door_with_zero_depth : part :=
  mkPart (Some "W") (Some "W - 2*T") (Some "T - T").

Definition door_variables : VariableBinding :=
  [("W", 24%float); ("T", 0.75%float)].

(** The variable set of a project, short names first. *)
Definition project_variables : VariableBinding :=
  [("W", 24%float); ("H", 30%float); ("D", 12%float); ("T", 0.75%float);
   ("T_door", 0.75%float); ("H_drawer", 6%float); ("D_drawer", 11%float);
   ("T_bottom", 0.25%float)].

Definition binop_token (op : JS.binop) : JS.token :=
  match op with
  | JS.Add => JS.TPlus
  | JS.Sub => JS.TMinus
  | JS.Mul => JS.TStar
  | JS.Div => JS.TSlash
  end.

Definition multiplicative (op : JS.binop) : bool :=
  match op with
  | JS.Mul | JS.Div => true
  | JS.Add | JS.Sub => false
  end.

(** * Properties *)

(** ** The monad *)

Section MonadFacts.

Context {H E A B : Type}.

Lemma bind_returns (c : M H E A) (k : A -> M H E B) h b h' :
  bind c k h = Some (Returns b, h') ->
  exists a h1, c h = Some (Returns a, h1) /\ k a h1 = Some (Returns b, h').
Proof.
  unfold bind. destruct (c h) as [[[a | e] h1] |]; try discriminate.
  intros Hk. exists a, h1. split; [reflexivity | exact Hk].
Qed.

End MonadFacts.

(** ** The evaluator, on any host *)

Section EvaluatorFacts.

Context {host : Type} {globals : Globals host}.
Variable new_Function : list string -> string -> list JS.value -> M host JS.exn JS.value.

Lemma evaluateFormula_invalid formula variables h :
  validateFormula formula variables = false ->
  evaluateFormula new_Function formula variables h
  = Some (Throws (InvalidFormula formula), h).
Proof.
  intros Hv. unfold evaluateFormula. rewrite Hv. reflexivity.
Qed.

(** What a successful evaluation went through: the formula passed
    validation, the function returned the number, the host's [isNaN] did
    not hold of it and the host's [isFinite] did. *)
Lemma evaluateFormula_success formula variables h r h' :
  evaluateFormula new_Function formula variables h = Some (Returns r, h') <->
  validateFormula formula variables = true
  /\ exists h1 h2,
      evalFunction new_Function formula (make_context variables) h
      = Some (Returns (JS.VNumber r), h1)
      /\ isNaN r h1 = Some (Returns false, h2)
      /\ isFinite r h2 = Some (Returns true, h').
Proof.
  unfold evaluateFormula.
  destruct (validateFormula formula variables); cbn [negb];
    [| split; [discriminate | intros [Hv _]; discriminate Hv]].
  unfold try_catch at 1. unfold bind.
  destruct (evalFunction new_Function formula (make_context variables) h)
    as [[[v | e] h1] |];
    [| split; [destruct e as [[] |]; discriminate
              | intros (_ & ? & ? & Heq & _); discriminate Heq]
     | split; [discriminate | intros (_ & ? & ? & Heq & _); discriminate Heq]].
  destruct v as [| x | b | | b | s | body];
    try (split; [discriminate | intros (_ & ? & ? & Heq & _); discriminate Heq]).
  unfold inside_try, try_catch, throw, ret.
  split.
  - destruct (isNaN x h1) as [[[nan | e] h2] |] eqn:Hnan;
      [| destruct e; discriminate | discriminate].
    destruct nan; [discriminate |].
    destruct (isFinite x h2) as [[[fin | e] h3] |] eqn:Hfin;
      [| destruct e; discriminate | discriminate].
    destruct fin; [| discriminate].
    cbn [negb]. intros Heq. inversion Heq; subst.
    split; [reflexivity |]. exists h1, h2. auto.
  - intros (_ & h1' & h2 & Heq & Hnan & Hfin). inversion Heq; subst.
    rewrite Hnan, Hfin. reflexivity.
Qed.

(** An Error object the engine throws gets out wrapped. *)
Lemma evaluateFormula_engine_throws formula variables h e h' :
  validateFormula formula variables = true ->
  new_Function (map fst (make_context variables)) ("return " ++ formula ++ ";")%string
    (map snd (make_context variables)) h = Some (Throws e, h') ->
  e <> JS.Nullish ->
  evaluateFormula new_Function formula variables h
  = Some (Throws (EvaluationError formula (Thrown e)), h').
Proof.
  intros Hv Hrun He. unfold evaluateFormula. rewrite Hv. cbn [negb].
  unfold try_catch at 1. unfold bind, evalFunction. unfold try_catch at 1.
  rewrite Hrun. destruct e; try reflexivity. contradiction.
Qed.

Lemma axis_returns formula variables h v h' :
  axis new_Function formula variables (JS.VNumber 0) h = Some (Returns v, h')
  <-> axis_result new_Function formula variables h v h'.
Proof.
  unfold axis, axis_result. destruct (present formula) as [f |]; split.
  - intros Hb. apply bind_returns in Hb. destruct Hb as (x & h1 & Hx & Hr).
    unfold ret in Hr. inversion Hr; subst. exists x. auto.
  - intros (x & Hx & ->). unfold bind. rewrite Hx. reflexivity.
  - unfold ret. intros Heq. inversion Heq; subst. auto.
  - intros [-> ->]. reflexivity.
Qed.

End EvaluatorFacts.

(** On the host of module [JS], where [isNaN] and [isFinite] are the
    built-in functions: what [evaluateFormula] makes of the value the
    function returns. *)
Lemma evaluateFormula_standard
      (new_Function : list string -> string -> list JS.value -> M JS.host JS.exn JS.value)
      formula variables h v h' :
  validateFormula formula variables = true ->
  new_Function (map fst (make_context variables)) ("return " ++ formula ++ ";")%string
    (map snd (make_context variables)) h = Some (Returns v, h') ->
  evaluateFormula new_Function formula variables h
  = Some (match v with
          | JS.VNumber x => checked formula x
          | _ => Throws (EvaluationError formula NotValidNumber)
          end, h').
Proof.
  intros Hv Hrun. unfold evaluateFormula. rewrite Hv. cbn [negb].
  unfold try_catch at 1. unfold bind, evalFunction. unfold try_catch at 1.
  rewrite Hrun. destruct v as [| x | b | | b | s | body]; try reflexivity.
  unfold checked, inside_try, try_catch. cbn [isNaN isFinite standard_globals]. unfold ret.
  destruct (is_nan x); [reflexivity |]. cbn [orb].
  destruct (is_finite x); reflexivity.
Qed.

Lemma checked_finite formula w :
  is_finite w = true -> checked formula w = Returns w.
Proof.
  intros Hfin. unfold checked. rewrite Hfin.
  unfold is_finite in Hfin. apply negb_true_iff in Hfin.
  apply orb_false_iff in Hfin. destruct Hfin as [-> _]. reflexivity.
Qed.

(** ** The evaluation context *)

Section ContextFacts.

Lemma lookup_Object_set_same o k x :
  JS.lookup k (Object_set o k x) = Some x.
Proof.
  induction o as [| [k' v'] r IH]; simpl.
  - rewrite String.eqb_refl. reflexivity.
  - destruct (String.eqb k k') eqn:Hk; simpl; rewrite Hk; auto.
Qed.

Lemma lookup_Object_set_other o k k' x :
  k' <> k -> JS.lookup k' (Object_set o k x) = JS.lookup k' o.
Proof.
  intros Hne. induction o as [| [k0 v0] r IH]; simpl.
  - apply String.eqb_neq in Hne. rewrite Hne. reflexivity.
  - destruct (String.eqb k k0) eqn:Hk; simpl.
    + apply String.eqb_eq in Hk. subst k0.
      apply String.eqb_neq in Hne. rewrite Hne. reflexivity.
    + rewrite IH. reflexivity.
Qed.

Lemma keys_Object_set o k x k' :
  In k' (map fst (Object_set o k x)) -> In k' (map fst o) \/ k' = k.
Proof.
  induction o as [| [k0 v0] r IH]; simpl.
  - intros [H | []]; auto.
  - destruct (String.eqb k k0) eqn:Hk; simpl.
    + intros [H | H]; auto.
    + intros [H | H]; auto. destruct (IH H); auto.
Qed.

Lemma NoDup_Object_set o k x :
  NoDup (map fst o) -> NoDup (map fst (Object_set o k x)).
Proof.
  induction o as [| [k0 v0] r IH]; simpl; intros Hnd.
  - constructor; [intros [] | constructor].
  - inversion Hnd as [| ? ? Hnotin Hr]; subst.
    destruct (String.eqb k k0) eqn:Hk; simpl.
    + constructor; assumption.
    + constructor; [| auto].
      intros Hin. apply keys_Object_set in Hin. destruct Hin as [Hin | Heq].
      * contradiction.
      * subst k0. rewrite String.eqb_refl in Hk. discriminate.
Qed.

Lemma valid_Object_set o k x :
  JS.valid_parameter k = true ->
  forallb JS.valid_parameter (map fst o) = true ->
  forallb JS.valid_parameter (map fst (Object_set o k x)) = true.
Proof.
  intros Hk. induction o as [| [k0 v0] r IH]; simpl.
  - intros _. rewrite Hk. reflexivity.
  - intros Hall. apply andb_true_iff in Hall. destruct Hall as [H0 Hr].
    destruct (String.eqb k k0); simpl; rewrite H0; simpl; auto.
Qed.

Lemma lookup_not_in (o : object) k :
  ~ In k (map fst o) -> JS.lookup k o = None.
Proof.
  induction o as [| [k0 v0] r IH]; simpl; intros Hnotin; [reflexivity |].
  destruct (String.eqb k k0) eqn:Hk.
  - apply String.eqb_eq in Hk. subst. exfalso. auto.
  - apply IH. auto.
Qed.

(** With parameters of distinct names, a name is resolved as in the
    object the parameters were taken from. *)
Lemma lookup_bind_parameters (o : object) rho k :
  NoDup (map fst o) ->
  JS.lookup k (JS.bind_parameters (map fst o) (map snd o) rho)
  = match JS.lookup k o with
    | Some v => Some v
    | None => JS.lookup k rho
    end.
Proof.
  revert rho. induction o as [| [k0 v0] r IH]; intros rho Hnd; simpl.
  - reflexivity.
  - inversion Hnd as [| ? ? Hnotin Hr]; subst.
    rewrite (IH _ Hr). simpl.
    destruct (String.eqb k k0) eqn:Hk.
    + apply String.eqb_eq in Hk. subst k0.
      rewrite (lookup_not_in r k Hnotin). reflexivity.
    + reflexivity.
Qed.

Lemma spread_keys variables : map fst (spread variables) = Object_keys variables.
Proof.
  unfold spread, Object_keys. rewrite map_map. reflexivity.
Qed.

Lemma lookup_spread variables x w :
  variable_value x variables = Some w ->
  JS.lookup x (spread variables) = Some (JS.VNumber w).
Proof.
  induction variables as [| [y u] r IH]; simpl; [discriminate |].
  destruct (String.eqb x y); [| exact IH].
  intros Heq. inversion Heq. reflexivity.
Qed.

Lemma make_context_NoDup variables :
  NoDup (Object_keys variables) -> NoDup (map fst (make_context variables)).
Proof.
  intros Hnd. unfold make_context.
  repeat apply NoDup_Object_set. rewrite spread_keys. exact Hnd.
Qed.

Lemma make_context_valid variables :
  forallb JS.valid_parameter (Object_keys variables) = true ->
  forallb JS.valid_parameter (map fst (make_context variables)) = true.
Proof.
  intros Hall. unfold make_context.
  repeat (apply valid_Object_set; [reflexivity |]).
  rewrite spread_keys. exact Hall.
Qed.

(** The allowed functions take precedence over variables of their
    names. *)
Lemma make_context_min variables :
  JS.lookup "min" (make_context variables) = Some (JS.VBuiltin JS.Math_min).
Proof.
  unfold make_context.
  repeat (rewrite lookup_Object_set_other; [| discriminate]).
  apply lookup_Object_set_same.
Qed.

Lemma make_context_variable variables x w :
  mentions x ALLOWED_FUNCTIONS = false ->
  variable_value x variables = Some w ->
  JS.lookup x (make_context variables) = Some (JS.VNumber w).
Proof.
  intros Hx Hw. unfold make_context.
  simpl in Hx. repeat (apply orb_false_iff in Hx; destruct Hx as [? Hx]).
  repeat (rewrite lookup_Object_set_other;
          [| apply String.eqb_neq; assumption]).
  apply lookup_spread. exact Hw.
Qed.

End ContextFacts.

(** A finite number is below [+Infinity]. *)
Lemma finite_below_infinity w :
  is_finite w = true -> (w <? infinity)%float = true.
Proof.
  unfold is_finite, is_nan, is_infinity. intros Hfin.
  apply negb_true_iff in Hfin. apply orb_false_iff in Hfin.
  destruct Hfin as [Hnan Hinf]. apply negb_false_iff in Hnan.
  rewrite ltb_spec. rewrite eqb_spec in Hnan, Hinf. rewrite abs_spec in Hinf.
  change (Prim2SF infinity) with (S754_infinity false) in *.
  destruct (Prim2SF w) as [s | s | | s m e]; simpl in *;
    try reflexivity; try discriminate.
Qed.

Lemma Math_min_one w :
  is_finite w = true -> Double.Math_min [w] = w.
Proof.
  intros Hfin. unfold Double.Math_min. simpl.
  assert (Hnan : is_nan w = false).
  { unfold is_finite in Hfin. apply negb_true_iff in Hfin.
    apply orb_false_iff in Hfin. tauto. }
  rewrite Hnan.
  replace (Double.is_pos_zero infinity) with false by reflexivity.
  rewrite andb_false_r.
  rewrite (finite_below_infinity w Hfin). reflexivity.
Qed.

Lemma newFunction_min_W params args w h :
  forallb JS.valid_parameter params = true ->
  JS.lookup "min" (JS.bind_parameters params args []) = Some (JS.VBuiltin JS.Math_min) ->
  JS.lookup "W" (JS.bind_parameters params args []) = Some (JS.VNumber w) ->
  JS.newFunction params "return min(W);" args h
  = Some (Returns (JS.VNumber (Double.Math_min [w])), h).
Proof.
  intros Hp Hmin HW. unfold JS.newFunction. rewrite Hp.
  replace (JS.lex 0 "return min(W);")
    with (Some [JS.TId "return"; JS.TId "min"; JS.TLParen; JS.TId "W"; JS.TRParen; JS.TSemi])
    by (vm_compute; reflexivity).
  replace (JS.parse_body [JS.TId "return"; JS.TId "min"; JS.TLParen; JS.TId "W"; JS.TRParen; JS.TSemi])
    with (JS.POk (Some (JS.ECall (JS.EId "min") [JS.EId "W"])) [])
    by (vm_compute; reflexivity).
  cbn [JS.eval]. unfold bind. rewrite Hmin, HW. reflexivity.
Qed.

(** ** The order of the keys *)

Section KeyOrder.

Lemma prefix_nil s : prefix EmptyString s = true.
Proof. destruct s; reflexivity. Qed.

Lemma prefix_cons c a d s :
  prefix (String c a) (String d s) = Ascii.eqb c d && prefix a s.
Proof.
  simpl. destruct (ascii_dec c d) as [-> | Hne].
  - rewrite Ascii.eqb_refl. reflexivity.
  - apply Ascii.eqb_neq in Hne. rewrite Hne. reflexivity.
Qed.

(** Two prefixes of one text: one is a prefix of the other. *)
Lemma prefix_total a b s :
  prefix a s = true -> prefix b s = true ->
  prefix a b = true \/ prefix b a = true.
Proof.
  revert a b. induction s as [| d s IH]; intros a b Ha Hb.
  - destruct a; [| discriminate]. left. apply prefix_nil.
  - destruct a as [| ca a]; [left; apply prefix_nil |].
    destruct b as [| cb b]; [right; apply prefix_nil |].
    rewrite prefix_cons in Ha, Hb.
    apply andb_true_iff in Ha, Hb. destruct Ha as [Hca Ha], Hb as [Hcb Hb].
    apply Ascii.eqb_eq in Hca, Hcb. subst ca cb.
    rewrite !prefix_cons, Ascii.eqb_refl. simpl. apply (IH a b Ha Hb).
Qed.

Lemma first_match_some alts s a :
  Str.first_match alts s = Some a -> In a alts /\ prefix a s = true.
Proof.
  induction alts as [| x r IH]; simpl; [discriminate |].
  destruct (prefix x s) eqn:Hx.
  - intros Heq. inversion Heq; subst. auto.
  - intros Hr. destruct (IH Hr). auto.
Qed.

Lemma first_match_none alts s :
  Str.first_match alts s = None -> forall a, In a alts -> prefix a s = false.
Proof.
  induction alts as [| x r IH]; simpl; [intros _ a [] |].
  destruct (prefix x s) eqn:Hx; [discriminate |].
  intros Hr a [<- | Hin]; auto.
Qed.

(** Among prefix-free alternatives at most one matches. *)
Lemma first_match_unique alts s a :
  prefix_free alts -> In a alts -> prefix a s = true ->
  Str.first_match alts s = Some a.
Proof.
  intros Hpf Hin Ha.
  destruct (Str.first_match alts s) as [b |] eqn:Hm.
  - apply first_match_some in Hm. destruct Hm as [Hb Hbs].
    destruct (prefix_total a b s Ha Hbs) as [Hab | Hba].
    + rewrite (Hpf a b Hin Hb Hab). reflexivity.
    + rewrite (Hpf b a Hb Hin Hba). reflexivity.
  - rewrite (first_match_none alts s Hm a Hin) in Ha. discriminate.
Qed.

Lemma first_match_permutation alts alts' s :
  prefix_free alts -> (forall a, In a alts <-> In a alts') ->
  Str.first_match alts s = Str.first_match alts' s.
Proof.
  intros Hpf Hsame.
  assert (Hpf' : prefix_free alts').
  { intros a b Ha Hb. apply Hpf; apply Hsame; assumption. }
  destruct (Str.first_match alts s) as [a |] eqn:Hm.
  - apply first_match_some in Hm. destruct Hm as [Hin Ha].
    symmetry. apply first_match_unique; [assumption | now apply Hsame | assumption].
  - destruct (Str.first_match alts' s) as [b |] eqn:Hm'; [| reflexivity].
    apply first_match_some in Hm'. destruct Hm' as [Hin Hb].
    apply Hsame in Hin. rewrite (first_match_none alts s Hm b Hin) in Hb.
    discriminate.
Qed.

(** The replacement looks at the alternatives through [first_match] only. *)
Lemma replace_alts_ext alts alts' repl :
  (forall s, Str.first_match alts s = Str.first_match alts' s) ->
  forall s skip, Str.replace_alts alts repl skip s = Str.replace_alts alts' repl skip s.
Proof.
  intros Hext. induction s as [| c r IH]; intros skip; simpl.
  - rewrite (Hext EmptyString). reflexivity.
  - destruct skip as [| k]; [| apply IH].
    rewrite (Hext (String c r)).
    destruct (Str.first_match alts' (String c r)) as [a |].
    + destruct (String.length a); rewrite IH; reflexivity.
    + rewrite IH. reflexivity.
Qed.

(** X5.  For variable names made of letters, digits and [_], none of
    which is a prefix of another, the verdict depends on the set of names
    only: two bindings with the same names, in any order and with any values,
    get the same verdict for every formula. *)
Lemma validateFormula_prefix_free formula variables1 variables2 :
  (forall k, In k (Object_keys variables1) -> plain_name k = true) ->
  prefix_free (Object_keys variables1) ->
  (forall x, In x (Object_keys variables1) <-> In x (Object_keys variables2)) ->
  validateFormula formula variables1 = validateFormula formula variables2.
Proof.
  intros _ Hpf Hsame. unfold validateFormula, testFormula.
  destruct formula as [| c0 f0]; [reflexivity |].
  destruct (Str.remove_whitespace (String c0 f0)) as [| c f]; [reflexivity |].
  assert (Hrep : Str.replace_all (Object_keys variables1) "V" (String c f)
                 = Str.replace_all (Object_keys variables2) "V" (String c f)).
  { unfold Str.replace_all. apply replace_alts_ext.
    intros s. apply first_match_permutation; assumption. }
  destruct (Object_keys variables1) as [| k1 r1] eqn:H1;
    destruct (Object_keys variables2) as [| k2 r2] eqn:H2.
  - reflexivity.
  - exfalso. apply (proj2 (Hsame k2)). left. reflexivity.
  - exfalso. apply (proj1 (Hsame k1)). left. reflexivity.
  - rewrite Hrep. reflexivity.
Qed.

Lemma ident_part_not_space c :
  Str.is_ident_part c = true -> Str.is_space c = false.
Proof.
  destruct c as [[] [] [] [] [] [] [] []]; intros H; try reflexivity; discriminate H.
Qed.

Lemma remove_whitespace_identifier k :
  Str.all Str.is_ident_part k = true -> Str.remove_whitespace k = k.
Proof.
  induction k as [| c r IH]; simpl; [reflexivity |].
  intros Hall. apply andb_true_iff in Hall. destruct Hall as [Hc Hr].
  rewrite (ident_part_not_space c Hc), (IH Hr). reflexivity.
Qed.

Lemma replace_alts_skip_length alts repl r :
  Str.replace_alts alts repl (String.length r) r
  = Str.replace_alts alts repl 0 EmptyString.
Proof.
  induction r as [| c r IH]; simpl; [reflexivity | exact IH].
Qed.

(** A formula that is the first key to match at its own start becomes the
    one mark [V]. *)
Lemma key_listed_first_accepted variables k :
  (forall k', In k' (Object_keys variables) -> plain_name k' = true) ->
  Str.first_match (Object_keys variables) k = Some k ->
  validateFormula k variables = true.
Proof.
  intros Hplain Hfirst.
  pose proof (Hplain k (proj1 (first_match_some _ _ _ Hfirst))) as Hk.
  unfold plain_name in Hk. apply andb_true_iff in Hk. destruct Hk as [Hne Hid].
  unfold validateFormula.
  rewrite (remove_whitespace_identifier k Hid).
  destruct k as [| c r]; [discriminate Hne |].
  unfold testFormula.
  destruct (Object_keys variables) as [| k0 keys] eqn:Hkeys; [discriminate |].
  assert (Hrep : Str.replace_all (k0 :: keys) "V" (String c r)
                 = ("V" ++ Str.replace_alts (k0 :: keys) "V" 0 EmptyString)%string).
  { unfold Str.replace_all. cbn [Str.replace_alts]. rewrite Hfirst.
    cbn [String.length]. rewrite replace_alts_skip_length. reflexivity. }
  rewrite Hrep. cbn [Str.replace_alts].
  destruct (Str.first_match (k0 :: keys) EmptyString); reflexivity.
Qed.

(** The verdict is a function of the formula and of the list of keys. *)
Lemma validateFormula_keys formula variables1 variables2 :
  Object_keys variables1 = Object_keys variables2 ->
  validateFormula formula variables1 = validateFormula formula variables2.
Proof.
  intros Hk. unfold validateFormula. rewrite Hk. reflexivity.
Qed.

End KeyOrder.

(** ** Characters the validator never lets through *)

Section ForeignCharacter.

Variable c : ascii.

Lemma mem_append a b : Str.mem c (a ++ b) = Str.mem c a || Str.mem c b.
Proof.
  induction a as [| d a IH]; simpl; [reflexivity |].
  rewrite IH. apply orb_assoc.
Qed.

Lemma mem_drop_prefix a s :
  prefix a s = true -> Str.mem c a = false -> Str.mem c s = true ->
  Str.mem c (Str.drop (String.length a) s) = true.
Proof.
  revert s. induction a as [| d a IH]; intros s Hp Ha Hs; [exact Hs |].
  destruct s as [| e s]; [discriminate |].
  rewrite prefix_cons in Hp. apply andb_true_iff in Hp. destruct Hp as [Hde Hp].
  apply Ascii.eqb_eq in Hde. subst e.
  simpl in Ha, Hs |- *. apply orb_false_iff in Ha. destruct Ha as [Hcd Ha].
  rewrite Hcd in Hs. simpl in Hs. apply IH; assumption.
Qed.

(** A character that occurs in no alternative survives the replacement. *)
Lemma replace_alts_keeps alts repl :
  (forall a, In a alts -> Str.mem c a = false) ->
  forall s skip,
    Str.mem c (Str.drop skip s) = true ->
    Str.mem c (Str.replace_alts alts repl skip s) = true.
Proof.
  intros Halts. induction s as [| d r IH]; intros skip Hs.
  - destruct skip; discriminate.
  - destruct skip as [| k]; [| exact (IH k Hs)].
    cbn [Str.replace_alts]. simpl in Hs.
    assert (Hcopy : Str.mem c (String d (Str.replace_alts alts repl 0 r)) = true).
    { simpl. destruct (Ascii.eqb c d); [reflexivity |]. simpl in Hs |- *.
      apply IH. destruct r; exact Hs. }
    destruct (Str.first_match alts (String d r)) as [a |] eqn:Hm; [| exact Hcopy].
    apply first_match_some in Hm. destruct Hm as [Hin Hp].
    destruct (String.length a) as [| k] eqn:Hlen.
    + rewrite mem_append, Hcopy. apply orb_true_r.
    + rewrite mem_append. apply orb_true_iff. right. apply IH.
      pose proof (mem_drop_prefix a (String d r) Hp (Halts a Hin)) as Hdrop.
      rewrite Hlen in Hdrop. apply Hdrop. exact Hs.
Qed.

Hypothesis not_digit : Str.is_digit c = false.
Hypothesis not_dot : Ascii.eqb c "." = false.

Lemma mem_drop_count_digits s :
  Str.mem c s = true -> Str.mem c (Str.drop (Str.count_digits s) s) = true.
Proof.
  induction s as [| d r IH]; [discriminate |]. intros Hs. simpl.
  destruct (Str.is_digit d) eqn:Hd; [| exact Hs].
  simpl in Hs |- *. apply IH.
  destruct (Ascii.eqb_spec c d) as [-> | _]; [congruence | exact Hs].
Qed.

Lemma drop_add n m s : Str.drop (n + m) s = Str.drop m (Str.drop n s).
Proof.
  revert s. induction n as [| n IH]; intros s; [reflexivity |].
  destruct s as [| d r]; simpl; [destruct m; reflexivity | apply IH].
Qed.

Lemma mem_drop_number_match s :
  Str.mem c s = true -> Str.mem c (Str.drop (Str.number_match s) s) = true.
Proof.
  intros Hs. pose proof (mem_drop_count_digits s Hs) as Hint.
  unfold Str.number_match.
  destruct (Str.count_digits s) as [| n']; [exact Hs |].
  set (n := S n') in *.
  destruct (Str.drop n s) as [| d r] eqn:Hd; [rewrite Hd; exact Hint |].
  destruct (Ascii.eqb_spec d ".") as [-> | _]; [| rewrite Hd; exact Hint].
  simpl in Hint. rewrite not_dot in Hint. simpl in Hint.
  pose proof (mem_drop_count_digits r Hint) as Hfrac.
  destruct (Str.count_digits r) as [| m']; [rewrite Hd; simpl; rewrite not_dot; exact Hint |].
  rewrite <- Nat.add_assoc, drop_add, Hd. exact Hfrac.
Qed.

(** A character that is neither a digit nor the point survives the
    replacement of numbers. *)
Lemma replace_numbers_keeps s :
  forall skip,
    Str.mem c (Str.drop skip s) = true ->
    Str.mem c (Str.replace_numbers skip s) = true.
Proof.
  induction s as [| d r IH]; intros skip Hs.
  - destruct skip; discriminate.
  - destruct skip as [| k]; [| exact (IH k Hs)].
    cbn [Str.replace_numbers]. simpl in Hs.
    pose proof (mem_drop_number_match (String d r) Hs) as Hdrop.
    destruct (Str.number_match (String d r)) as [| k].
    + simpl. destruct (Ascii.eqb c d); [reflexivity |]. simpl in Hs |- *.
      apply IH. destruct r; exact Hs.
    + simpl. apply orb_true_iff. right. apply IH. exact Hdrop.
Qed.

Lemma all_mem (p : ascii -> bool) s :
  Str.mem c s = true -> p c = false -> Str.all p s = false.
Proof.
  induction s as [| d r IH]; [discriminate |]. simpl. intros Hs Hp.
  destruct (Ascii.eqb_spec c d) as [<- | _].
  - rewrite Hp. reflexivity.
  - rewrite (IH Hs Hp). apply andb_false_r.
Qed.

(** With variable names made of letters, digits and [_], a formula is
    rejected as soon as it has, outside white space, a character that is not
    an operator, a digit or one of the letters [V], [N], [F], and that occurs
    in no variable name and in no function name. *)
Lemma validateFormula_foreign_character formula variables :
  (forall k, In k (Object_keys variables) -> plain_name k = true) ->
  Str.mem c (Str.remove_whitespace formula) = true ->
  allowed_char c = false ->
  (forall k, In k (Object_keys variables) -> Str.mem c k = false) ->
  existsb (Str.mem c) ALLOWED_FUNCTIONS = false ->
  validateFormula formula variables = false.
Proof.
  intros _ Hin Hnot Hkeys Hfun. unfold validateFormula.
  destruct formula as [| c0 f0]; [reflexivity |].
  destruct (Str.remove_whitespace (String c0 f0)) as [| c1 f1] eqn:Hclean;
    [reflexivity |].
  apply all_mem; [| exact Hnot].
  unfold testFormula. apply replace_numbers_keeps.
  cbn [Str.drop ALLOWED_FUNCTIONS]. unfold Str.replace_all.
  apply replace_alts_keeps.
  { intros a Ha. apply in_map_iff in Ha. destruct Ha as (f & <- & Hf).
    rewrite mem_append. apply orb_false_iff. split.
    - destruct (Str.mem c f) eqn:Hm; [| reflexivity].
      assert (Hex : existsb (Str.mem c) ALLOWED_FUNCTIONS = true)
        by (apply existsb_exists; exists f; auto).
      congruence.
    - unfold allowed_char in Hnot. simpl in Hnot |- *.
      repeat (apply orb_false_iff in Hnot; destruct Hnot as [? Hnot]).
      repeat match goal with
             | H : _ || _ = false |- _ => apply orb_false_iff in H; destruct H
             end.
      rewrite orb_false_r. assumption. }
  cbn [Str.drop].
  destruct (Object_keys variables) as [| k0 keys] eqn:Hk; [exact Hin |].
  apply replace_alts_keeps; [| exact Hin].
  intros a Ha. apply Hkeys. exact Ha.
Qed.

End ForeignCharacter.

(** X3.  For variable names made of letters, digits and [_], a formula is
    rejected as soon as it has, outside white space, an ASCII character that
    is not an operator, a digit or one of the letters [V], [N], [F], and that
    occurs in no variable name and in no function name. *)
Lemma validateFormula_rejects_foreign_character formula variables c :
  (forall k, In k (Object_keys variables) -> plain_name k = true) ->
  (nat_of_ascii c < 128)%nat ->
  Str.mem c (Str.remove_whitespace formula) = true ->
  allowed_char c = false ->
  Str.is_digit c = false ->
  (forall k, In k (Object_keys variables) -> Str.mem c k = false) ->
  existsb (Str.mem c) ALLOWED_FUNCTIONS = false ->
  validateFormula formula variables = false.
Proof.
  intros Hplain _ Hin Hnot Hdigit Hkeys Hfun.
  apply (validateFormula_foreign_character c Hdigit); try assumption.
  destruct (Ascii.eqb_spec c ".") as [-> | _]; [discriminate Hnot | reflexivity].
Qed.


(** * The specification, statement by statement *)

(** ** Validator *)

(** C1 fails on the code.  In ["V + 1"] with the only variable [W], [V] is
    an identifier that is neither a variable nor an allowed function, yet the
    formula is accepted: the final loop takes the letters [V], [N], [F] of
    the input for the marks the replacements leave.  So is ["WW + 1"]: a
    variable name is replaced wherever it occurs, also inside a longer
    identifier.  The specification's example, ["X + 1"], is rejected. *)
Theorem validateFormula_accepts_unbound_identifier :
  unbound_identifier "V + 1" [("W", 10%float)] "V" = true
  /\ validateFormula "V + 1" [("W", 10%float)] = true
  /\ unbound_identifier "WW + 1" [("W", 10%float)] "WW" = true
  /\ validateFormula "WW + 1" [("W", 10%float)] = true
  /\ unbound_identifier "X + 1" [("W", 10%float)] "X" = true
  /\ validateFormula "X + 1" [("W", 10%float)] = false.
Proof. repeat split; reflexivity. Qed.

(** C2 fails on the code.  The alternation of the variable pattern tries
    the names in the order of the keys and takes the first that matches, not
    the longest: with [H] before [H_drawer] the formula ["H_drawer"] becomes
    ["V_drawer"] and is rejected, with [H_drawer] first it is accepted.  With
    a project's variables listed short names first, the formulas
    ["H_drawer - T"] and ["D_drawer - 2*T"] of the default drawer parts are
    rejected. *)
Theorem validateFormula_prefix_key_order :
  testFormula "H_drawer" ["H"; "H_drawer"] = "V_drawer"
  /\ validateFormula "H_drawer" [("H", 30%float); ("H_drawer", 6%float)] = false
  /\ testFormula "H_drawer" ["H_drawer"; "H"] = "V"
  /\ validateFormula "H_drawer" [("H_drawer", 6%float); ("H", 30%float)] = true
  /\ validateFormula "H_drawer - T" project_variables = false
  /\ validateFormula "D_drawer - 2*T" project_variables = false.
Proof. repeat split; reflexivity. Qed.

(** ** Evaluator *)

(** C3, as the code has it.  For a binding with distinct identifier keys in
    which [W] is a finite number [w] and under which ["min(W)"] passes
    validation, [evaluateFormula] returns [w]: [min] is the host's
    [Math.min], which takes any number of arguments, and nothing checks the
    number of arguments of a call. *)
Theorem evaluateFormula_min_of_one_argument :
  forall (variables : VariableBinding) (w : float) (h : JS.host),
    NoDup (Object_keys variables) ->
    forallb JS.valid_parameter (Object_keys variables) = true ->
    variable_value "W" variables = Some w ->
    is_finite w = true ->
    validateFormula "min(W)" variables = true ->
    evaluateFormula JS.newFunction "min(W)" variables h = Some (Returns w, h).
Proof.
  intros variables w h Hnd Hvalid HW Hfin Hv.
  rewrite (evaluateFormula_standard JS.newFunction "min(W)" variables h
             (JS.VNumber (Double.Math_min [w])) h Hv).
  - rewrite (Math_min_one w Hfin), (checked_finite _ w Hfin). reflexivity.
  - change ("return " ++ "min(W)" ++ ";")%string with "return min(W);".
    apply newFunction_min_W.
    + apply make_context_valid. exact Hvalid.
    + rewrite lookup_bind_parameters by (apply make_context_NoDup; exact Hnd).
      rewrite make_context_min. reflexivity.
    + rewrite lookup_bind_parameters by (apply make_context_NoDup; exact Hnd).
      rewrite (make_context_variable variables "W" w); [reflexivity | reflexivity | exact HW].
Qed.

Lemma evaluateFormula_min_of_one_argument_witness :
  evaluateFormula JS.newFunction "min(W)" [("W", 24%float); ("T", 0.75%float)] host0
  = Some (Returns 24%float, host0).
Proof.
  apply (evaluateFormula_min_of_one_argument
           [("W", 24%float); ("T", 0.75%float)] 24%float host0).
  - repeat constructor; simpl; intuition discriminate.
  - reflexivity.
  - reflexivity.
  - reflexivity.
  - reflexivity.
Defined.

(** C3, as the specification states it, fails: ["min(W)"] with [W = 24] is
    not rejected, it evaluates to [24]. *)
Lemma evaluateFormula_min_W_returns :
  validateFormula "min(W)" [("W", 24%float)] = true
  /\ evaluateFormula JS.newFunction "min(W)" [("W", 24%float)] host0
     = Some (Returns 24%float, host0).
Proof. split; vm_compute; reflexivity. Qed.

(** ** Dimensions of a part *)

(** C4, as the code has it.  [evaluatePartDimensions] returns a record
    exactly when every formula that is present evaluates, the axes being
    taken in the order width, height, depth; in the record an axis whose
    formula is absent ([null], or the empty string) holds the number [0] the
    record starts with, and an axis whose formula is present holds the number
    [evaluateFormula] returned for it. *)
Theorem evaluatePartDimensions_axes :
  forall (host : Type) (globals : Globals host)
         (new_Function : list string -> string -> list JS.value -> M host JS.exn JS.value)
         (p : part) (variables : VariableBinding) (h h' : host) (d : dimensions),
    evaluatePartDimensions new_Function p variables h = Some (Returns d, h')
    <-> exists h1 h2,
        axis_result new_Function (formula_width p) variables h (width d) h1
        /\ axis_result new_Function (formula_height p) variables h1 (height d) h2
        /\ axis_result new_Function (formula_depth p) variables h2 (depth d) h'.
Proof.
  intros host globals new_Function p variables h h' d.
  unfold evaluatePartDimensions. simpl. split.
  - intros Hrun.
    apply bind_returns in Hrun. destruct Hrun as (w & h1 & Hw & Hrun).
    apply bind_returns in Hrun. destruct Hrun as (ht & h2 & Hh & Hrun).
    apply bind_returns in Hrun. destruct Hrun as (dp & h3 & Hd & Hrun).
    unfold ret in Hrun. inversion Hrun; subst. simpl.
    exists h1, h2. rewrite <- !axis_returns. auto.
  - intros (h1 & h2 & Hw & Hh & Hd).
    apply axis_returns in Hw, Hh, Hd.
    unfold bind. rewrite Hw, Hh, Hd. destruct d. reflexivity.
Qed.

(** The record of a door with no depth formula. *)
Lemma evaluatePartDimensions_axes_witness :
  exists h1 h2,
    axis_result JS.newFunction (Some "W") door_variables host0 (JS.VNumber 24) h1
    /\ axis_result JS.newFunction (Some "W - 2*T") door_variables h1 (JS.VNumber 22.5) h2
    /\ axis_result JS.newFunction None door_variables h2 (JS.VNumber 0) host0.
Proof.
  apply (proj1 (evaluatePartDimensions_axes JS.host standard_globals JS.newFunction door_without_depth
                  door_variables host0 host0
                  (mkDimensions (JS.VNumber 24) (JS.VNumber 22.5) (JS.VNumber 0)))).
  vm_compute. reflexivity.
Defined.

(** C4, as the specification states it, fails: with no depth formula the
    depth is the number [0], exactly what a depth formula that computes zero
    gives; the two records are equal. *)
Lemma evaluatePartDimensions_absent_depth_is_zero :
  evaluatePartDimensions JS.newFunction door_without_depth door_variables host0
  = Some (Returns (mkDimensions (JS.VNumber 24) (JS.VNumber 22.5) (JS.VNumber 0)), host0)
  /\ evaluatePartDimensions JS.newFunction door_with_zero_depth door_variables host0
     = evaluatePartDimensions JS.newFunction door_without_depth door_variables host0.
Proof. split; vm_compute; reflexivity. Qed.

(** ** Failures *)

(** C5 fails on the code.  The check of the result calls the global
    functions [isNaN] and [isFinite], which a formula can replace.  With the
    variables [W], [constructor], [toString] and [fromCharCode], the formula
    [escape_formula] passes validation (every run of letters in it is a
    variable name); it reaches [Function] as [W.constructor.constructor],
    spells the text ["isNaN=isFinite;isFinite=Number;return 1/0"] with
    [fromCharCode], and calls the function made from it.  The call rebinds
    the two globals and returns [Infinity]; the check, [isFinite(Infinity)]
    being false and [Number(Infinity)] true, lets it through, and
    [evaluateFormula] returns [Infinity].  From then on the specification's
    own example, ["W / (T - T)"] with [W = 24] and [T = 0.75], returns
    [Infinity] too.  On a host whose globals are the built-in functions the
    example fails with the evaluation error, as the specification says. *)
Theorem evaluateFormula_returns_infinity :
  let division := "W / (T - T)" in
  let door := [("W", 24%float); ("T", 0.75%float)] in
  spelled "is" = "W.toString().constructor.fromCharCode(105)+W.toString().constructor.fromCharCode(115)"
  /\ validateFormula escape_formula escape_variables = true
  /\ evaluateFormula Realm.newFunction escape_formula escape_variables (Realm.standard host0)
     = Some (Returns infinity, escaped_host)
  /\ is_finite infinity = false
  /\ evaluateFormula Realm.newFunction division door escaped_host
     = Some (Returns infinity, escaped_host)
  /\ evaluateFormula Realm.newFunction division door (Realm.standard host0)
     = Some (Throws (EvaluationError division NotValidNumber), Realm.standard host0)
  /\ evaluateFormula JS.newFunction division door host0
     = Some (Throws (EvaluationError division NotValidNumber), host0).
Proof.
  repeat split; vm_compute; reflexivity.
Qed.


(** C6.  When [validateFormula formula variables] is false,
    [evaluateFormula] throws "Invalid formula" at once.  The statement holds
    for every engine and leaves the state of the host as it was: the
    Function constructor is not reached, so nothing of the formula is
    evaluated. *)
Theorem evaluateFormula_fails_fast :
  forall (host : Type) (globals : Globals host)
         (new_Function : list string -> string -> list JS.value -> M host JS.exn JS.value)
         (formula : string) (variables : VariableBinding) (h : host),
    validateFormula formula variables = false ->
    evaluateFormula new_Function formula variables h
    = Some (Throws (InvalidFormula formula), h).
Proof.
  intros host globals new_Function formula variables h Hv.
  now apply evaluateFormula_invalid.
Qed.

Lemma evaluateFormula_fails_fast_witness :
  validateFormula "X + 1" [("W", 10%float)] = false
  /\ evaluateFormula no_engine "X + 1" [("W", 10%float)] host0
     = Some (Throws (InvalidFormula "X + 1"), host0).
Proof.
  split.
  - reflexivity.
  - apply (evaluateFormula_fails_fast JS.host standard_globals no_engine "X + 1" [("W", 10%float)] host0).
    reflexivity.
Defined.

(** ** Arithmetic *)

(** C7.  ["W - 2*T"] with [W = 24], [T = 0.75] is [22.5] and ["W/2 - 0.5"]
    with [W = 24] is [11.5].  More generally [x op1 y op2 z] is read as
    [x op1 (y op2 z)] when [op2] is [*] or [/] and [op1] is [+] or [-], and
    as [(x op1 y) op2 z] otherwise: [*] and [/] bind tighter than [+] and
    [-], and operators of one level associate to the left. *)
Theorem evaluateFormula_precedence :
  forall (h : JS.host),
    evaluateFormula JS.newFunction "W - 2*T" [("W", 24%float); ("T", 0.75%float)] h
    = Some (Returns 22.5%float, h)
    /\ evaluateFormula JS.newFunction "W/2 - 0.5" [("W", 24%float)] h
       = Some (Returns 11.5%float, h)
    /\ forall (op1 op2 : JS.binop) (x y z : float),
        JS.parse_body
          [JS.TId "return"; JS.TNum x; binop_token op1; JS.TNum y; binop_token op2;
           JS.TNum z; JS.TSemi]
        = JS.POk
            (Some (if multiplicative op2 && negb (multiplicative op1)
                   then JS.EBin op1 (JS.ENum x) (JS.EBin op2 (JS.ENum y) (JS.ENum z))
                   else JS.EBin op2 (JS.EBin op1 (JS.ENum x) (JS.ENum y)) (JS.ENum z)))
            [].
Proof.
  intros h. split; [| split].
  - vm_compute. reflexivity.
  - vm_compute. reflexivity.
  - intros op1 op2 x y z. destruct op1, op2; reflexivity.
Qed.

(** C8.  ["round(H_drawer / 2)"] with [H_drawer = 7] is exactly [4]:
    [Math.round] sends a value half-way between two integers to the one
    towards [+Infinity], so [3.5] goes to [4] (and [2.5] to [3], [-3.5] to
    [-3]). *)
Theorem evaluateFormula_round_half :
  forall (h : JS.host),
    evaluateFormula JS.newFunction "round(H_drawer / 2)" [("H_drawer", 7%float)] h
    = Some (Returns 4%float, h)
    /\ Double.Math_round 3.5 = 4%float
    /\ Double.Math_round 2.5 = 3%float
    /\ Double.Math_round (-3.5) = (-3)%float.
Proof.
  intros h. repeat split; vm_compute; reflexivity.
Qed.

(** ** Repeated calls and the variable names *)

(** C9 fails on the code for [evaluateFormula].  With the variables [Ma],
    [th] and [random], the text ["Math.random()"] passes validation, since
    each run of letters is a variable name; the function made from it calls
    the host's [Math.random].  Two calls in a row, on the same formula and
    the same binding, return different numbers: [0.25], then [0.5] on a host
    that draws them in this order. *)
Theorem evaluateFormula_not_deterministic :
  let variables := [("Ma", 1%float); ("th", 2%float); ("random", 3%float)] in
  let host1 := JS.advance host0 in
  let host2 := JS.advance host1 in
  validateFormula "Math.random()" variables = true
  /\ testFormula "Math.random()" (Object_keys variables) = "VV.V()"
  /\ evaluateFormula JS.newFunction "Math.random()" variables host0
     = Some (Returns 0.25%float, host1)
  /\ evaluateFormula JS.newFunction "Math.random()" variables host1
     = Some (Returns 0.5%float, host2).
Proof.
  repeat split; vm_compute; reflexivity.
Qed.

(** C10 fails on the code.  Two bindings with the same keys, listed in
    different orders, get different verdicts for one formula: the order of
    the keys decides, besides the set of names. *)
Theorem validateFormula_depends_on_key_order :
  let variables1 := [("T", 0.75%float); ("T_door", 0.75%float)] in
  let variables2 := [("T_door", 0.75%float); ("T", 0.75%float)] in
  (forall x, mentions x (Object_keys variables1) = mentions x (Object_keys variables2))
  /\ validateFormula "T_door - T" variables1 = false
  /\ validateFormula "T_door - T" variables2 = true.
Proof.
  repeat split; try reflexivity.
  intros x. simpl. rewrite !orb_false_r. apply orb_comm.
Qed.

(** * Further properties of the code *)

(** ** What the validator rejects *)

Lemma remove_whitespace_blank formula :
  Str.all Str.is_space formula = true -> Str.remove_whitespace formula = EmptyString.
Proof.
  induction formula as [| c r IH]; simpl; [reflexivity |].
  intros Hall. apply andb_true_iff in Hall. destruct Hall as [Hc Hr].
  rewrite Hc. exact (IH Hr).
Qed.

Lemma remove_whitespace_no_space formula :
  Str.all (fun c => negb (Str.is_space c)) (Str.remove_whitespace formula) = true.
Proof.
  induction formula as [| c r IH]; simpl; [reflexivity |].
  destruct (Str.is_space c) eqn:Hc; simpl; [exact IH |].
  rewrite Hc, IH. reflexivity.
Qed.

Lemma remove_whitespace_fixed s :
  Str.all (fun c => negb (Str.is_space c)) s = true -> Str.remove_whitespace s = s.
Proof.
  induction s as [| c r IH]; simpl; [reflexivity |].
  intros Hall. apply andb_true_iff in Hall. destruct Hall as [Hc Hr].
  apply negb_true_iff in Hc. rewrite Hc, (IH Hr). reflexivity.
Qed.

Lemma mem_remove_whitespace c formula :
  Str.is_space c = false -> Str.mem c formula = true ->
  Str.mem c (Str.remove_whitespace formula) = true.
Proof.
  intros Hc. induction formula as [| d r IH]; [discriminate |].
  cbn [Str.mem Str.remove_whitespace]. intros Hm.
  destruct (Ascii.eqb_spec c d) as [<- | Hne].
  - rewrite Hc. cbn [Str.mem]. rewrite Ascii.eqb_refl. reflexivity.
  - destruct (Str.is_space d); cbn [Str.mem]; [exact (IH Hm) |].
    apply Ascii.eqb_neq in Hne. rewrite Hne. exact (IH Hm).
Qed.

Lemma blank_formula_invalid formula variables :
  Str.all Str.is_space formula = true -> validateFormula formula variables = false.
Proof.
  intros Hblank. unfold validateFormula.
  rewrite (remove_whitespace_blank formula Hblank).
  destruct formula; reflexivity.
Qed.

(** X1.  A formula that is empty or made of white space only is rejected,
    whatever the variables are. *)
Theorem validateFormula_blank :
  forall (formula : string) (variables : VariableBinding),
    Str.all Str.is_space formula = true ->
    validateFormula formula variables = false.
Proof.
  intros formula variables Hblank. now apply blank_formula_invalid.
Qed.

Lemma validateFormula_blank_witness :
  validateFormula "   " [("W", 24%float)] = false.
Proof.
  apply (validateFormula_blank "   " [("W", 24%float)]). reflexivity.
Defined.

(** X2.  White space never changes the verdict: a formula and the same
    formula with all white space taken out are both accepted or both
    rejected, also when the white space stands inside a name or a number. *)
Theorem validateFormula_ignores_whitespace :
  forall (formula : string) (variables : VariableBinding),
    validateFormula formula variables
    = validateFormula (Str.remove_whitespace formula) variables.
Proof.
  intros formula variables. unfold validateFormula.
  rewrite (remove_whitespace_fixed _ (remove_whitespace_no_space formula)).
  destruct formula as [| c r]; [reflexivity |].
  destruct (Str.remove_whitespace (String c r)); reflexivity.
Qed.

(** The rejection of foreign characters at work on "W; DROP TABLE parts". *)
Lemma validateFormula_rejects_foreign_character_witness :
  validateFormula "W; DROP TABLE parts" [("W", 24%float); ("T", 0.75%float)] = false.
Proof.
  apply (validateFormula_rejects_foreign_character
           "W; DROP TABLE parts" [("W", 24%float); ("T", 0.75%float)] ";");
    try reflexivity.
  - intros k [<- | [<- | []]]; reflexivity.
  - apply Nat.ltb_lt. reflexivity.
  - intros k [<- | [<- | []]]; reflexivity.
Defined.

Lemma plain_name_no_comma k : plain_name k = true -> Str.mem "," k = false.
Proof.
  unfold plain_name. intros H. apply andb_true_iff in H. destruct H as [_ H].
  induction k as [| c r IH]; [reflexivity |].
  cbn [Str.all] in H. apply andb_true_iff in H. destruct H as [Hc Hr].
  cbn [Str.mem]. rewrite (IH Hr), orb_false_r.
  destruct (Ascii.eqb_spec "," c) as [<- | _]; [discriminate Hc | reflexivity].
Qed.

(** X4.  With variable names made of letters, digits and [_], a formula
    with a comma in it never passes validation, so [evaluateFormula] refuses
    it before any evaluation: a call with two arguments, as in "min(W, T)",
    cannot be written. *)
Theorem evaluateFormula_refuses_comma :
  forall (host : Type) (globals : Globals host)
         (new_Function : list string -> string -> list JS.value -> M host JS.exn JS.value)
         (formula : string) (variables : VariableBinding) (h : host),
    (forall k, In k (Object_keys variables) -> plain_name k = true) ->
    Str.mem "," formula = true ->
    evaluateFormula new_Function formula variables h
    = Some (Throws (InvalidFormula formula), h).
Proof.
  intros host globals new_Function formula variables h Hkeys Hcomma.
  apply evaluateFormula_invalid.
  apply (validateFormula_foreign_character ","); try reflexivity.
  - exact Hkeys.
  - apply mem_remove_whitespace; [reflexivity | exact Hcomma].
  - intros k Hk. apply plain_name_no_comma, Hkeys, Hk.
Qed.

Lemma evaluateFormula_refuses_comma_witness :
  evaluateFormula no_engine "min(W, T)" [("W", 24%float); ("T", 0.75%float)] host0
  = Some (Throws (InvalidFormula "min(W, T)"), host0).
Proof.
  apply (evaluateFormula_refuses_comma JS.host standard_globals no_engine "min(W, T)"
           [("W", 24%float); ("T", 0.75%float)] host0).
  - intros k [<- | [<- | []]]; reflexivity.
  - reflexivity.
Defined.

(** ** The order of the keys, again *)

(** Three variables of the default formulas, none a prefix of another, in
    two orders. *)
Lemma validateFormula_prefix_free_witness :
  validateFormula "H_drawer - T_door"
    [("T_door", 0.75%float); ("H_drawer", 6%float); ("W", 24%float)]
  = validateFormula "H_drawer - T_door"
      [("W", 24%float); ("H_drawer", 6%float); ("T_door", 0.75%float)].
Proof.
  apply validateFormula_prefix_free.
  - intros k [<- | [<- | [<- | []]]]; reflexivity.
  - intros a b [<- | [<- | [<- | []]]] [<- | [<- | [<- | []]]] Hp;
      try reflexivity; discriminate Hp.
  - intros x; simpl; tauto.
Defined.

(** X6.  With variable names made of letters, digits and [_], a formula
    that is one variable name is accepted when no key listed before the name
    is a prefix of it, that is, when the name is the first key that matches
    at the start of the formula. *)
Theorem validateFormula_key_listed_first :
  forall (variables : VariableBinding) (k : string),
    (forall k', In k' (Object_keys variables) -> plain_name k' = true) ->
    Str.first_match (Object_keys variables) k = Some k ->
    validateFormula k variables = true.
Proof.
  intros variables k Hplain Hfirst. now apply key_listed_first_accepted.
Qed.

Lemma validateFormula_key_listed_first_witness :
  validateFormula "H_drawer" [("H_drawer", 6%float); ("H", 30%float)] = true.
Proof.
  apply (validateFormula_key_listed_first [("H_drawer", 6%float); ("H", 30%float)] "H_drawer").
  - intros k [<- | [<- | []]]; reflexivity.
  - reflexivity.
Defined.

(** ** What the validator accepts *)

Section Acceptance.

Lemma all_append (p : ascii -> bool) a b :
  Str.all p (a ++ b) = Str.all p a && Str.all p b.
Proof.
  induction a as [| c a IH]; simpl; [reflexivity |].
  rewrite IH. apply andb_assoc.
Qed.

Lemma all_impl (p q : ascii -> bool) s :
  (forall c, p c = true -> q c = true) -> Str.all p s = true -> Str.all q s = true.
Proof.
  intros Hpq. induction s as [| c r IH]; simpl; [reflexivity |].
  intros Hall. apply andb_true_iff in Hall. destruct Hall as [Hc Hr].
  rewrite (Hpq c Hc), (IH Hr). reflexivity.
Qed.

(** No alternative matches a text whose first character is not the first
    character of any of them. *)
Lemma first_match_head (P : ascii -> bool) alts t :
  (forall a, In a alts -> JS.next_is P a = true) ->
  JS.next_is P t = false ->
  Str.first_match alts t = None.
Proof.
  intros Halts Ht. induction alts as [| a r IH]; [reflexivity |].
  cbn [Str.first_match].
  assert (Ha : prefix a t = false).
  { pose proof (Halts a (or_introl eq_refl)) as HP.
    destruct a as [| c a']; [discriminate |].
    destruct t as [| d t']; [reflexivity |].
    rewrite prefix_cons. simpl in HP, Ht.
    destruct (Ascii.eqb_spec c d) as [-> | _]; [congruence | reflexivity]. }
  rewrite Ha. apply IH. intros b Hb. apply Halts. right. exact Hb.
Qed.

Lemma replace_alts_identity (P : ascii -> bool) alts repl s :
  (forall a, In a alts -> JS.next_is P a = true) ->
  Str.all (fun c => negb (P c)) s = true ->
  Str.replace_alts alts repl 0 s = s.
Proof.
  intros Halts. induction s as [| d r IH]; intros Hall.
  - cbn [Str.replace_alts].
    rewrite (first_match_head P alts EmptyString Halts eq_refl). reflexivity.
  - simpl in Hall. apply andb_true_iff in Hall. destruct Hall as [Hd Hr].
    apply negb_true_iff in Hd. cbn [Str.replace_alts].
    rewrite (first_match_head P alts (String d r) Halts Hd), (IH Hr). reflexivity.
Qed.

Lemma number_match_digit d r :
  Str.is_digit d = true -> Str.number_match (String d r) <> O.
Proof.
  intros Hd. unfold Str.number_match. cbn [Str.count_digits]. rewrite Hd.
  destruct (Str.drop (S (Str.count_digits r)) (String d r)) as [| e t]; [discriminate |].
  destruct (Ascii.eqb e "."); [| discriminate].
  destruct (Str.count_digits t); discriminate.
Qed.

(** After the replacement of numbers no digit is left. *)
Lemma replace_numbers_allowed s :
  Str.all (fun c => allowed_char c || Str.is_digit c) s = true ->
  forall skip, Str.all allowed_char (Str.replace_numbers skip s) = true.
Proof.
  induction s as [| d r IH]; intros Hall skip; [reflexivity |].
  simpl in Hall. apply andb_true_iff in Hall. destruct Hall as [Hd Hr].
  destruct skip as [| k]; [| exact (IH Hr k)].
  cbn [Str.replace_numbers].
  destruct (Str.number_match (String d r)) as [| k] eqn:Hm.
  - cbn [Str.all]. rewrite (IH Hr 0), andb_true_r.
    destruct (Str.is_digit d) eqn:Hdigit.
    + exfalso. exact (number_match_digit d r Hdigit Hm).
    + rewrite orb_false_r in Hd. exact Hd.
  - cbn [Str.all]. rewrite (IH Hr k). reflexivity.
Qed.

Lemma function_names_start (P : ascii -> bool) :
  P "m"%char = true -> P "r"%char = true -> P "f"%char = true -> P "c"%char = true ->
  forall a, In a (map (fun f => (f ++ "(")%string) ALLOWED_FUNCTIONS) ->
            JS.next_is P a = true.
Proof.
  intros Hm Hr Hf Hc a Ha. simpl in Ha.
  destruct Ha as [<- | [<- | [<- | [<- | [<- | []]]]]]; assumption.
Qed.

(** The text left after the three replacements, when no variable name can
    match: the numbers are gone and every other character is as it was. *)
Lemma testFormula_allowed (P : ascii -> bool) clean t1 :
  P "m"%char = true -> P "r"%char = true -> P "f"%char = true -> P "c"%char = true ->
  Str.all (fun c => negb (P c)) t1 = true ->
  Str.all (fun c => allowed_char c || Str.is_digit c) t1 = true ->
  match ALLOWED_FUNCTIONS with
  | [] => t1
  | _ => Str.replace_all (map (fun f => (f ++ "(")%string) ALLOWED_FUNCTIONS) "F(" t1
  end = clean ->
  Str.all allowed_char (Str.replace_numbers 0 clean) = true.
Proof.
  intros Hm Hr Hf Hc HP Hall <-. cbn [ALLOWED_FUNCTIONS]. unfold Str.replace_all.
  rewrite (replace_alts_identity P _ "F(" t1 (function_names_start P Hm Hr Hf Hc) HP).
  apply replace_numbers_allowed. exact Hall.
Qed.

Lemma remove_whitespace_all (p : ascii -> bool) formula :
  Str.all (fun c => Str.is_space c || p c) formula = true ->
  Str.all p (Str.remove_whitespace formula) = true.
Proof.
  induction formula as [| c r IH]; simpl; [reflexivity |].
  intros Hall. apply andb_true_iff in Hall. destruct Hall as [Hc Hr].
  destruct (Str.is_space c); simpl in *; [exact (IH Hr) |].
  rewrite Hc, (IH Hr). reflexivity.
Qed.

Lemma remove_whitespace_empty formula :
  Str.remove_whitespace formula = EmptyString -> Str.all Str.is_space formula = true.
Proof.
  induction formula as [| c r IH]; simpl; [reflexivity |].
  destruct (Str.is_space c); [exact IH | discriminate].
Qed.

End Acceptance.

(** The replacement of alternatives brings in the characters of the
    replacement text and no other. *)
Lemma replace_alts_chars (p : ascii -> bool) alts repl :
  Str.all p repl = true ->
  forall s skip, Str.all p s = true -> Str.all p (Str.replace_alts alts repl skip s) = true.
Proof.
  intros Hrepl. induction s as [| d r IH]; intros skip Hs.
  - cbn [Str.replace_alts].
    destruct skip; [| reflexivity].
    destruct (Str.first_match alts EmptyString); [exact Hrepl | reflexivity].
  - cbn [Str.all] in Hs. apply andb_true_iff in Hs. destruct Hs as [Hd Hr].
    destruct skip as [| k]; [| exact (IH k Hr)].
    cbn [Str.replace_alts].
    destruct (Str.first_match alts (String d r)) as [a |].
    + destruct (String.length a) as [| k].
      * rewrite all_append, Hrepl. cbn [Str.all]. rewrite Hd, (IH 0 Hr). reflexivity.
      * rewrite all_append, Hrepl, (IH k Hr). reflexivity.
    + cbn [Str.all]. rewrite Hd, (IH 0 Hr). reflexivity.
Qed.

Lemma operator_or_digit_not_letter c :
  (allowed_char c || Str.is_digit c) = true ->
  negb (Ascii.eqb c "m" || Ascii.eqb c "r" || Ascii.eqb c "f" || Ascii.eqb c "c") = true.
Proof.
  destruct c as [[] [] [] [] [] [] [] []]; intros H; try reflexivity; discriminate H.
Qed.

(** X8.  Validation is lexical: with variable names made of letters,
    digits and [_], every formula made of digits, the operators
    [+ - * / ( ) .] and white space, and not of white space alone, is
    accepted, whether or not it is an expression ("1 + * )" is). *)
Theorem validateFormula_lexical_only :
  forall (formula : string) (variables : VariableBinding),
    (forall k, In k (Object_keys variables) -> plain_name k = true) ->
    Str.all lexical_char formula = true ->
    Str.all Str.is_space formula = false ->
    validateFormula formula variables = true.
Proof.
  intros formula variables _ Hlex Hnonblank. unfold validateFormula.
  destruct formula as [| c0 f0]; [discriminate |].
  destruct (Str.remove_whitespace (String c0 f0)) as [| c f] eqn:Hclean.
  - apply remove_whitespace_empty in Hclean. congruence.
  - assert (Hchars : Str.all (fun c => allowed_char c || Str.is_digit c)
                             (String c f) = true).
    { rewrite <- Hclean. apply remove_whitespace_all.
      refine (all_impl _ _ _ _ Hlex). intros a Ha. unfold lexical_char in Ha.
      unfold allowed_char.
      destruct (Str.is_space a); [reflexivity |]. cbn [orb] in Ha |- *.
      apply orb_true_iff in Ha. destruct Ha as [Ha | Ha]; rewrite Ha;
        repeat rewrite orb_true_r; reflexivity. }
    set (t1 := match Object_keys variables with
               | [] => String c f
               | _ => Str.replace_all (Object_keys variables) "V" (String c f)
               end).
    assert (Ht1 : Str.all (fun c => allowed_char c || Str.is_digit c) t1 = true).
    { unfold t1. destruct (Object_keys variables); [exact Hchars |].
      unfold Str.replace_all. apply replace_alts_chars; [reflexivity | exact Hchars]. }
    unfold testFormula. fold t1.
    apply (testFormula_allowed
             (fun a => Ascii.eqb a "m" || Ascii.eqb a "r" || Ascii.eqb a "f"
                       || Ascii.eqb a "c")
             _ t1); try reflexivity.
    + refine (all_impl _ _ _ _ Ht1). exact operator_or_digit_not_letter.
    + exact Ht1.
Qed.

Lemma validateFormula_lexical_only_witness :
  validateFormula "1 + * )" [("W", 24%float); ("T", 0.75%float)] = true.
Proof.
  apply (validateFormula_lexical_only "1 + * )" [("W", 24%float); ("T", 0.75%float)]).
  - intros k [<- | [<- | []]]; reflexivity.
  - reflexivity.
  - reflexivity.
Defined.

Section Concatenation.

Lemma prefix_append k rest : prefix k (k ++ rest) = true.
Proof.
  induction k as [| c k IH]; [apply prefix_nil |].
  cbn [String.append]. rewrite prefix_cons, Ascii.eqb_refl. exact IH.
Qed.

Lemma replace_alts_skip_append alts repl a rest :
  Str.replace_alts alts repl (String.length a) (a ++ rest)
  = Str.replace_alts alts repl 0 rest.
Proof.
  induction a as [| c a IH]; [reflexivity |].
  cbn [String.length String.append Str.replace_alts]. exact IH.
Qed.

Lemma plain_name_nonempty k : plain_name k = true -> JS.next_is (fun _ => true) k = true.
Proof.
  unfold plain_name. destruct k; [discriminate | reflexivity].
Qed.

Lemma plain_name_chars k : plain_name k = true -> Str.all Str.is_ident_part k = true.
Proof.
  unfold plain_name. intros H. apply andb_true_iff in H. tauto.
Qed.

Variable keys : list string.
Hypothesis keys_prefix_free : prefix_free keys.
Hypothesis keys_plain : forall k, In k keys -> plain_name k = true.

(** Each name of a concatenation is replaced by one mark. *)
Lemma replace_concat_names ks :
  (forall k, In k ks -> In k keys) ->
  Str.replace_alts keys "V" 0 (concat_names ks) = marks (List.length ks).
Proof.
  induction ks as [| k r IH]; intros Hin.
  - cbn [concat_names Str.replace_alts List.length marks].
    rewrite (first_match_head (fun _ => true) keys EmptyString); [reflexivity | | reflexivity].
    intros a Ha. apply plain_name_nonempty, keys_plain, Ha.
  - pose proof (Hin k (or_introl eq_refl)) as Hk.
    pose proof (plain_name_nonempty k (keys_plain k Hk)) as Hne.
    cbn [concat_names List.length marks].
    destruct k as [| c k']; [discriminate |].
    cbn [String.append Str.replace_alts].
    change (String c (k' ++ concat_names r)) with (String c k' ++ concat_names r)%string.
    rewrite (first_match_unique keys _ (String c k') keys_prefix_free Hk
               (prefix_append (String c k') (concat_names r))).
    cbn [String.length]. rewrite replace_alts_skip_append.
    rewrite IH; [reflexivity |]. intros a Ha. apply Hin. right. exact Ha.
Qed.

Lemma concat_names_chars ks :
  (forall k, In k ks -> In k keys) ->
  Str.all Str.is_ident_part (concat_names ks) = true.
Proof.
  induction ks as [| k r IH]; intros Hin; [reflexivity |].
  cbn [concat_names]. rewrite all_append.
  rewrite (plain_name_chars k (keys_plain k (Hin k (or_introl eq_refl)))).
  apply IH. intros a Ha. apply Hin. right. exact Ha.
Qed.

Lemma marks_all n : Str.all (fun c => Ascii.eqb c "V") (marks n) = true.
Proof. induction n as [| n IH]; [reflexivity | exact IH]. Qed.

End Concatenation.

(** X7.  Variable names are replaced wherever they occur, with no regard
    to where an identifier starts or ends: when the names are non-empty, made
    of letters, digits and [_], and none is a prefix of another, every text
    got by writing variable names one after the other passes validation,
    although it names no variable. *)
Theorem validateFormula_concatenated_names :
  forall (variables : VariableBinding) (ks : list string),
    prefix_free (Object_keys variables) ->
    (forall k, In k (Object_keys variables) -> plain_name k = true) ->
    ks <> [] ->
    (forall k, In k ks -> In k (Object_keys variables)) ->
    validateFormula (concat_names ks) variables = true.
Proof.
  intros variables ks Hpf Hplain Hne Hin. unfold validateFormula.
  rewrite (remove_whitespace_identifier _
             (concat_names_chars (Object_keys variables) Hplain ks Hin)).
  assert (Hfirst : exists c r, concat_names ks = String c r).
  { destruct ks as [| k r]; [contradiction |].
    pose proof (plain_name_nonempty k (Hplain k (Hin k (or_introl eq_refl)))) as Hk.
    destruct k as [| c k']; [discriminate |].
    exists c, (k' ++ concat_names r)%string. reflexivity. }
  destruct Hfirst as (c & r & Hform). rewrite Hform.
  unfold testFormula.
  apply (testFormula_allowed (fun a => negb (Ascii.eqb a "V")) _ (marks (List.length ks)));
    try reflexivity.
  - refine (all_impl _ _ _ _ (marks_all _)). intros a Ha. rewrite Ha. reflexivity.
  - refine (all_impl _ _ _ _ (marks_all _)). intros a Ha.
    apply Ascii.eqb_eq in Ha. subst a. reflexivity.
  - destruct (Object_keys variables) as [| k0 keys] eqn:Hk.
    + destruct ks as [| k r']; [contradiction |].
      destruct (Hin k (or_introl eq_refl)).
    + unfold Str.replace_all. rewrite <- Hform.
      rewrite (replace_concat_names (k0 :: keys) Hpf Hplain ks Hin). reflexivity.
Qed.

Lemma validateFormula_concatenated_names_witness :
  validateFormula "WidthDepth" [("Width", 24%float); ("Depth", 12%float)] = true.
Proof.
  apply (validateFormula_concatenated_names
           [("Width", 24%float); ("Depth", 12%float)] ["Width"; "Depth"]).
  - intros a b [<- | [<- | []]] [<- | [<- | []]] Hp; try reflexivity; discriminate Hp.
  - intros k [<- | [<- | []]]; reflexivity.
  - discriminate.
  - intros k Hk. exact Hk.
Defined.

(** ** Reading a variable *)

Section Identifier.

Lemma lex_return t :
  JS.lex 0 ("return " ++ t)
  = option_map (cons (JS.TId "return")) (JS.lex 0 t).
Proof. reflexivity. Qed.

Lemma ident_length_append x rest :
  Str.all Str.is_ident_part x = true ->
  JS.next_is Str.is_ident_part rest = false ->
  JS.ident_length (x ++ rest) = String.length x.
Proof.
  intros Hx Hrest. induction x as [| c r IH].
  - destruct rest as [| d t]; [reflexivity |]. simpl in Hrest |- *.
    rewrite Hrest. reflexivity.
  - simpl in Hx. apply andb_true_iff in Hx. destruct Hx as [Hc Hr].
    cbn [String.append JS.ident_length String.length]. rewrite Hc, (IH Hr). reflexivity.
Qed.

Lemma take_append x rest : JS.take (String.length x) (x ++ rest) = x.
Proof.
  induction x as [| c r IH]; [destruct rest; reflexivity |].
  cbn [String.length String.append JS.take]. rewrite IH. reflexivity.
Qed.

Lemma lex_skip_append a rest :
  JS.lex (String.length a) (a ++ rest) = JS.lex 0 rest.
Proof.
  induction a as [| c a IH]; [reflexivity |].
  cbn [String.length String.append JS.lex]. exact IH.
Qed.

Lemma ident_start_class c :
  JS.is_ident_start c = true ->
  JS.is_blank c = false /\ Str.is_digit c = false /\ Ascii.eqb c "." = false.
Proof.
  destruct c as [[] [] [] [] [] [] [] []]; intros H;
    try (repeat split; reflexivity); discriminate H.
Qed.

(** An identifier followed by a semicolon is one identifier token. *)
Lemma lex_identifier x :
  JS.next_is JS.is_ident_start x = true ->
  Str.all Str.is_ident_part x = true ->
  JS.lex 0 (x ++ ";") = Some [JS.TId x; JS.TSemi].
Proof.
  intros Hstart Hall. destruct x as [| c r]; [discriminate |].
  simpl in Hstart. destruct (ident_start_class c Hstart) as (Hb & Hd & Hdot).
  pose proof (ident_length_append (String c r) ";" Hall eq_refl) as Hlen.
  pose proof (take_append (String c r) ";") as Htake.
  cbn [String.append] in Hlen, Htake |- *. cbn [JS.lex].
  rewrite Hb, Hd, Hdot, Hstart. cbn [orb andb].
  rewrite Hlen, Htake. cbn [String.length Nat.sub].
  rewrite Nat.sub_0_r, lex_skip_append. reflexivity.
Qed.

Lemma valid_parameter_parts x :
  JS.valid_parameter x = true ->
  JS.next_is JS.is_ident_start x = true
  /\ Str.all Str.is_ident_part x = true
  /\ JS.is_reserved x = false.
Proof.
  unfold JS.valid_parameter. intros H.
  apply andb_true_iff in H. destruct H as [H Hres].
  apply andb_true_iff in H. destruct H as [Hs Ha].
  apply negb_true_iff in Hres. auto.
Qed.

Lemma valid_parameter_plain x : JS.valid_parameter x = true -> plain_name x = true.
Proof.
  intros Hx. destruct (valid_parameter_parts x Hx) as (Hs & Ha & _).
  unfold plain_name. rewrite Ha. destruct x; [discriminate Hs | reflexivity].
Qed.

(** The function whose body returns a parameter returns the argument. *)
Lemma newFunction_identifier params args x v h :
  forallb JS.valid_parameter params = true ->
  JS.valid_parameter x = true ->
  JS.lookup x (JS.bind_parameters params args []) = Some v ->
  JS.newFunction params ("return " ++ x ++ ";") args h = Some (Returns v, h).
Proof.
  intros Hp Hx Hv. destruct (valid_parameter_parts x Hx) as (Hs & Ha & Hres).
  unfold JS.newFunction. rewrite Hp, lex_return, (lex_identifier x Hs Ha).
  cbn [option_map]. unfold JS.parse_body.
  cbn [existsb JS.reserved_token]. rewrite Hres. cbn [orb].
  cbn. rewrite Hv. reflexivity.
Qed.

Lemma variable_value_key x variables w :
  variable_value x variables = Some w -> In x (Object_keys variables).
Proof.
  induction variables as [| [y u] r IH]; simpl; [discriminate |].
  destruct (String.eqb_spec x y) as [-> | _]; [left; reflexivity |].
  intros H. right. exact (IH H).
Qed.

End Identifier.

(** X9.  A formula that is the name of a variable evaluates to the value of
    the variable: for a binding with distinct identifier keys in which [x],
    not the name of an allowed function, is a finite number [w] and is listed
    before any key that is a prefix of it, [evaluateFormula x] returns [w]
    and leaves the host as it was. *)
Theorem evaluateFormula_variable :
  forall (variables : VariableBinding) (x : string) (w : float) (h : JS.host),
    NoDup (Object_keys variables) ->
    forallb JS.valid_parameter (Object_keys variables) = true ->
    variable_value x variables = Some w ->
    mentions x ALLOWED_FUNCTIONS = false ->
    is_finite w = true ->
    Str.first_match (Object_keys variables) x = Some x ->
    evaluateFormula JS.newFunction x variables h = Some (Returns w, h).
Proof.
  intros variables x w h Hnd Hvalid Hw Hfun Hfin Hfirst.
  assert (Hx : JS.valid_parameter x = true).
  { rewrite forallb_forall in Hvalid. apply Hvalid.
    exact (variable_value_key x variables w Hw). }
  destruct (valid_parameter_parts x Hx) as (Hs & Ha & _).
  assert (Hv : validateFormula x variables = true).
  { apply key_listed_first_accepted; [| exact Hfirst].
    intros k Hk. apply valid_parameter_plain.
    rewrite forallb_forall in Hvalid. exact (Hvalid k Hk). }
  rewrite (evaluateFormula_standard JS.newFunction x variables h (JS.VNumber w) h Hv).
  - rewrite (checked_finite _ w Hfin). reflexivity.
  - apply newFunction_identifier.
    + apply make_context_valid. exact Hvalid.
    + exact Hx.
    + rewrite lookup_bind_parameters by (apply make_context_NoDup; exact Hnd).
      rewrite (make_context_variable variables x w Hfun Hw). reflexivity.
Qed.

Lemma evaluateFormula_variable_witness :
  evaluateFormula JS.newFunction "H_drawer" variables_long_first host0
  = Some (Returns 6%float, host0).
Proof.
  apply (evaluateFormula_variable variables_long_first "H_drawer" 6%float host0);
    try reflexivity.
  repeat constructor; simpl; intuition discriminate.
Defined.

(** ** Names of the allowed functions *)

(** In the context the five names stand for the functions, whatever the
    variables are. *)
Lemma make_context_function variables f :
  In f ALLOWED_FUNCTIONS ->
  exists b, JS.lookup f (make_context variables) = Some (JS.VBuiltin b).
Proof.
  intros Hf. simpl in Hf. unfold make_context.
  destruct Hf as [<- | [<- | [<- | [<- | [<- | []]]]]]; eexists;
    repeat first [ apply lookup_Object_set_same
                 | rewrite lookup_Object_set_other by discriminate ].
Qed.

(** X10.  A variable named like an allowed function cannot be read.  For a
    binding with distinct identifier keys and [f] one of [min], [max],
    [round], [floor], [ceil], a formula that is just [f] and passes
    validation (as it does when [f] is a variable) does not evaluate to the
    variable: [f] stands for the function, which is not a number, and
    [evaluateFormula] throws the evaluation error. *)
Theorem evaluateFormula_function_name :
  forall (variables : VariableBinding) (f : string) (h : JS.host),
    NoDup (Object_keys variables) ->
    forallb JS.valid_parameter (Object_keys variables) = true ->
    In f ALLOWED_FUNCTIONS ->
    validateFormula f variables = true ->
    evaluateFormula JS.newFunction f variables h
    = Some (Throws (EvaluationError f NotValidNumber), h).
Proof.
  intros variables f h Hnd Hvalid Hf Hv.
  destruct (make_context_function variables f Hf) as (b & Hb).
  assert (Hx : JS.valid_parameter f = true).
  { simpl in Hf. destruct Hf as [<- | [<- | [<- | [<- | [<- | []]]]]]; reflexivity. }
  rewrite (evaluateFormula_standard JS.newFunction f variables h (JS.VBuiltin b) h Hv).
  - reflexivity.
  - apply newFunction_identifier.
    + apply make_context_valid. exact Hvalid.
    + exact Hx.
    + rewrite lookup_bind_parameters by (apply make_context_NoDup; exact Hnd).
      rewrite Hb. reflexivity.
Qed.

Lemma evaluateFormula_function_name_witness :
  evaluateFormula JS.newFunction "max" [("W", 24%float); ("max", 36%float)] host0
  = Some (Throws (EvaluationError "max" NotValidNumber), host0).
Proof.
  apply (evaluateFormula_function_name [("W", 24%float); ("max", 36%float)] "max" host0).
  - repeat constructor; simpl; intuition discriminate.
  - reflexivity.
  - simpl. tauto.
  - reflexivity.
Defined.

(** ** Errors *)

Lemma try_catch_throws {H E E' A : Type} (c : M H E A) (handler : E -> M H E' A)
      h e h' :
  try_catch c handler h = Some (Throws e, h') ->
  exists e0 h1, c h = Some (Throws e0, h1) /\ handler e0 h1 = Some (Throws e, h').
Proof.
  unfold try_catch. destruct (c h) as [[[a | e0] h1] |]; try discriminate.
  intros Hh. exists e0, h1. auto.
Qed.



(** ** Arithmetic formulas *)

Section Arithmetic.

Lemma bind_inversion {H E A B} (c : M H E A) (k : A -> M H E B) h o h' :
  bind c k h = Some (o, h') ->
  (exists a h1, c h = Some (Returns a, h1) /\ k a h1 = Some (o, h'))
  \/ (exists e, c h = Some (Throws e, h') /\ o = Throws e).
Proof.
  unfold bind. destruct (c h) as [[[a | e] h1] |]; [| | discriminate].
  - intros Hk. left. exists a, h1. auto.
  - intros Heq. inversion Heq; subst. right. exists e. auto.
Qed.

Lemma bind_returned {H E A B} (c : M H E A) (k : A -> M H E B) h a h1 :
  c h = Some (Returns a, h1) -> bind c k h = k a h1.
Proof. intros Hc. unfold bind. rewrite Hc. reflexivity. Qed.

Lemma bind_thrown {H E A B} (c : M H E A) (k : A -> M H E B) h e h1 :
  c h = Some (Throws e, h1) -> bind c k h = Some (Throws e, h1).
Proof. intros Hc. unfold bind. rewrite Hc. reflexivity. Qed.

Lemma eval_args_cons rho a r :
  eval_args rho (a :: r)
  = (v <- JS.eval rho a ;; vs <- eval_args rho r ;; ret (v :: vs)).
Proof. reflexivity. Qed.

Lemma eval_call rho f args :
  JS.eval rho (JS.ECall f args)
  = (vf <- JS.eval rho f ;;
     vs <- eval_args rho args ;;
     match vf with
     | JS.VBuiltin b => JS.apply_builtin b vs
     | JS.VFunction _ => unmodelled
     | _ => throw JS.TypeError
     end).
Proof. reflexivity. Qed.

Lemma identifiers_call f args :
  expr_identifiers (JS.ECall f args) = expr_identifiers f ++ args_identifiers args.
Proof. reflexivity. Qed.

Lemma arithmetic_call f args :
  arithmetic (JS.ECall f args) = callee arithmetic f && arithmetic_args args.
Proof. reflexivity. Qed.

(** Induction on expressions, the arguments of a call included. *)
Lemma expr_induction (P : JS.expr -> Prop) :
  (forall x, P (JS.ENum x)) ->
  (forall x, P (JS.EId x)) ->
  (forall op a, P a -> P (JS.EUnary op a)) ->
  (forall op a b, P a -> P b -> P (JS.EBin op a b)) ->
  (forall f args, P f -> Forall P args -> P (JS.ECall f args)) ->
  (forall a x, P a -> P (JS.EMember a x)) ->
  forall e, P e.
Proof.
  intros HNum HId HUnary HBin HCall HMember.
  fix IH 1. intros [x | x | op a | op a b | f args | a x].
  - apply HNum.
  - apply HId.
  - apply HUnary, IH.
  - apply HBin; apply IH.
  - apply HCall; [apply IH |].
    revert args. fix IHargs 1. intros [| a r]; constructor; [apply IH | apply IHargs].
  - apply HMember, IH.
Qed.

Lemma to_numbers_numbers xs h :
  JS.to_numbers (map JS.VNumber xs) h = Some (Returns xs, h).
Proof.
  induction xs as [| x r IH]; [reflexivity |].
  cbn [map JS.to_numbers JS.to_number]. unfold bind, ret in *. rewrite IH. reflexivity.
Qed.

(** The five functions of the context compute a number from numbers and
    leave the host alone. *)
Lemma apply_allowed_function b xs :
  allowed_function b = true ->
  exists x, forall h,
      JS.apply_builtin b (map JS.VNumber xs) h = Some (Returns (JS.VNumber x), h).
Proof.
  destruct b; try discriminate; intros _; cbn [JS.apply_builtin].
  - eexists. intros h. unfold bind. rewrite to_numbers_numbers. reflexivity.
  - eexists. intros h. unfold bind. rewrite to_numbers_numbers. reflexivity.
  - destruct xs as [| x r]; eexists; intros h; reflexivity.
  - destruct xs as [| x r]; eexists; intros h; reflexivity.
  - destruct xs as [| x r]; eexists; intros h; reflexivity.
Qed.

Variable rho : JS.env.
Hypothesis rho_variables :
  forall x v, mentions x ALLOWED_FUNCTIONS = false ->
              JS.lookup x rho = Some v -> exists w, v = JS.VNumber w.
Hypothesis rho_functions :
  forall f, mentions f ALLOWED_FUNCTIONS = true ->
            exists b, JS.lookup f rho = Some (JS.VBuiltin b) /\ allowed_function b = true.

Lemma eval_args_settles args :
  Forall (settles rho) args ->
  exists o,
    (forall h, eval_args rho args h = Some (o, h))
    /\ (o = Throws JS.TypeError \/ exists xs, o = Returns (map JS.VNumber xs)).
Proof.
  induction 1 as [| a r Ha _ IH].
  - exists (Returns []). split; [intros h; reflexivity | right; exists []; reflexivity].
  - destruct Ha as (oa & Ha & [-> | [x ->]]).
    + exists (Throws JS.TypeError). split; [| left; reflexivity].
      intros h. rewrite eval_args_cons, (bind_thrown _ _ _ _ _ (Ha h)). reflexivity.
    + destruct IH as (orest & Hr & [-> | [xs ->]]).
      * exists (Throws JS.TypeError). split; [| left; reflexivity].
        intros h. rewrite eval_args_cons, (bind_returned _ _ _ _ _ (Ha h)),
                    (bind_thrown _ _ _ _ _ (Hr h)). reflexivity.
      * exists (Returns (map JS.VNumber (x :: xs))). split; [| right; eauto].
        intros h. rewrite eval_args_cons, (bind_returned _ _ _ _ _ (Ha h)),
                    (bind_returned _ _ _ _ _ (Hr h)). reflexivity.
Qed.

(** What the callee of a call evaluates to. *)
Lemma eval_callee f :
  (arithmetic f = true ->
   (forall x, In x (expr_identifiers f) -> JS.lookup x rho <> None) ->
   settles rho f) ->
  callee arithmetic f = true ->
  (forall x, In x (expr_identifiers f) -> JS.lookup x rho <> None) ->
  exists o,
    (forall h, JS.eval rho f h = Some (o, h))
    /\ (o = Throws JS.TypeError
        \/ (exists x, o = Returns (JS.VNumber x))
        \/ (exists b, o = Returns (JS.VBuiltin b) /\ allowed_function b = true)).
Proof.
  intros IH Hcallee Hbound.
  assert (Hother : arithmetic f = true ->
                   exists o,
                     (forall h, JS.eval rho f h = Some (o, h))
                     /\ (o = Throws JS.TypeError
                         \/ (exists x, o = Returns (JS.VNumber x))
                         \/ (exists b, o = Returns (JS.VBuiltin b)
                                       /\ allowed_function b = true))).
  { intros Ha. destruct (IH Ha Hbound) as (o & Ho & [-> | [x ->]]);
      eexists; (split; [exact Ho |]); eauto. }
  destruct f as [x | name | op a | op a b | g args | a x];
    try (apply Hother; exact Hcallee).
  destruct (mentions name ALLOWED_FUNCTIONS) eqn:Hname.
  - destruct (rho_functions name Hname) as (b & Hb & Hallowed).
    exists (Returns (JS.VBuiltin b)). split; [| right; right; eauto].
    intros h. cbn [JS.eval]. rewrite Hb. reflexivity.
  - apply Hother. cbn [arithmetic]. rewrite Hname. reflexivity.
Qed.

(** An arithmetic expression whose names are all bound has a value that
    does not depend on the host, or fails with a TypeError (a call of what
    is not a function). *)
Lemma eval_arithmetic e :
  arithmetic e = true ->
  (forall x, In x (expr_identifiers e) -> JS.lookup x rho <> None) ->
  settles rho e.
Proof.
  induction e as [x | x | op a IHa | op a b IHa IHb | f args IHf IHargs | a x IHa]
    using expr_induction; intros Harith Hbound.
  - exists (Returns (JS.VNumber x)). split; [intros h; reflexivity | right; eauto].
  - cbn [arithmetic] in Harith. apply negb_true_iff in Harith.
    destruct (JS.lookup x rho) as [v |] eqn:Hx;
      [| exfalso; apply (Hbound x); [left; reflexivity | exact Hx]].
    destruct (rho_variables x v Harith Hx) as [w ->].
    exists (Returns (JS.VNumber w)). split; [| right; eauto].
    intros h. cbn [JS.eval]. rewrite Hx. reflexivity.
  - destruct (IHa Harith Hbound) as (o & Ha & [-> | [x ->]]).
    + exists (Throws JS.TypeError). split; [| left; reflexivity].
      intros h. cbn [JS.eval]. rewrite (bind_thrown _ _ _ _ _ (Ha h)). reflexivity.
    + exists (Returns (JS.VNumber (JS.apply_unop op x))). split; [| right; eauto].
      intros h. cbn [JS.eval]. rewrite (bind_returned _ _ _ _ _ (Ha h)). reflexivity.
  - cbn [arithmetic] in Harith. apply andb_true_iff in Harith.
    destruct Harith as [Harith_a Harith_b].
    assert (Hba : forall x, In x (expr_identifiers a) -> JS.lookup x rho <> None).
    { intros x Hx. apply Hbound. cbn [expr_identifiers]. apply in_or_app. auto. }
    assert (Hbb : forall x, In x (expr_identifiers b) -> JS.lookup x rho <> None).
    { intros x Hx. apply Hbound. cbn [expr_identifiers]. apply in_or_app. auto. }
    destruct (IHa Harith_a Hba) as (oa & Ha & [-> | [x ->]]).
    + exists (Throws JS.TypeError). split; [| left; reflexivity].
      intros h. cbn [JS.eval]. rewrite (bind_thrown _ _ _ _ _ (Ha h)). reflexivity.
    + destruct (IHb Harith_b Hbb) as (ob & Hb & [-> | [y ->]]).
      * exists (Throws JS.TypeError). split; [| left; reflexivity].
        intros h. cbn [JS.eval].
        rewrite (bind_returned _ _ _ _ _ (Ha h)), (bind_thrown _ _ _ _ _ (Hb h)).
        reflexivity.
      * exists (Returns (JS.VNumber (JS.apply_binop op x y))). split; [| right; eauto].
        intros h. cbn [JS.eval].
        rewrite (bind_returned _ _ _ _ _ (Ha h)), (bind_returned _ _ _ _ _ (Hb h)).
        reflexivity.
  - rewrite arithmetic_call in Harith. apply andb_true_iff in Harith.
    destruct Harith as [Hcallee Hargs]. rewrite identifiers_call in Hbound.
    assert (Hbf : forall x, In x (expr_identifiers f) -> JS.lookup x rho <> None).
    { intros x Hx. apply Hbound. apply in_or_app. auto. }
    assert (Hba : forall x, In x (args_identifiers args) -> JS.lookup x rho <> None).
    { intros x Hx. apply Hbound. apply in_or_app. auto. }
    assert (Hall : Forall (settles rho) args).
    { clear Hbound Hbf Hcallee IHf. induction IHargs as [| a r Ha _ IH]; constructor.
      - cbn [arithmetic_args] in Hargs. apply andb_true_iff in Hargs.
        apply Ha; [tauto |]. intros x Hx. apply Hba.
        cbn [args_identifiers]. apply in_or_app. auto.
      - cbn [arithmetic_args] in Hargs. apply andb_true_iff in Hargs.
        apply IH; [tauto |]. intros x Hx. apply Hba.
        cbn [args_identifiers]. apply in_or_app. auto. }
    destruct (eval_args_settles args Hall) as (oargs & Hvs & Hoargs).
    destruct (eval_callee f IHf Hcallee Hbf) as (ocallee & Hf & Hof).
    destruct Hof as [-> | Hof].
    { exists (Throws JS.TypeError). split; [| left; reflexivity].
      intros h. rewrite eval_call, (bind_thrown _ _ _ _ _ (Hf h)). reflexivity. }
    destruct Hoargs as [-> | [xs ->]].
    { exists (Throws JS.TypeError). split; [| left; reflexivity].
      intros h. rewrite eval_call.
      destruct Hof as [[x ->] | (b & -> & _)];
        rewrite (bind_returned _ _ _ _ _ (Hf h)), (bind_thrown _ _ _ _ _ (Hvs h));
        reflexivity. }
    destruct Hof as [[x ->] | (b & -> & Hallowed)].
    + exists (Throws JS.TypeError). split; [| left; reflexivity].
      intros h. rewrite eval_call.
      rewrite (bind_returned _ _ _ _ _ (Hf h)), (bind_returned _ _ _ _ _ (Hvs h)).
      reflexivity.
    + destruct (apply_allowed_function b xs Hallowed) as (x & Hx).
      exists (Returns (JS.VNumber x)). split; [| right; eauto].
      intros h. rewrite eval_call.
      rewrite (bind_returned _ _ _ _ _ (Hf h)), (bind_returned _ _ _ _ _ (Hvs h)).
      apply Hx.
  - discriminate Harith.
Qed.

End Arithmetic.

Section ArithmeticFormulas.

Lemma lookup_spread_number variables x v :
  JS.lookup x (spread variables) = Some v -> exists w, v = JS.VNumber w.
Proof.
  induction variables as [| [y u] r IH]; simpl; [discriminate |].
  destruct (String.eqb x y); [| exact IH].
  intros Heq. inversion Heq. eauto.
Qed.

Lemma lookup_spread_bound variables x :
  In x (Object_keys variables) -> JS.lookup x (spread variables) <> None.
Proof.
  induction variables as [| [y u] r IH]; simpl; [contradiction |].
  intros [-> | Hin].
  - rewrite String.eqb_refl. discriminate.
  - destruct (String.eqb x y); [discriminate | exact (IH Hin)].
Qed.

Lemma lookup_Object_set_bound o k b x :
  JS.lookup x o <> None -> JS.lookup x (Object_set o k b) <> None.
Proof.
  intros Hx. destruct (String.eqb_spec x k) as [-> | Hne].
  - rewrite lookup_Object_set_same. discriminate.
  - rewrite lookup_Object_set_other by exact Hne. exact Hx.
Qed.

Lemma mentions_In x l : mentions x l = true -> In x l.
Proof.
  unfold mentions. intros H. apply existsb_exists in H.
  destruct H as (y & Hy & Heq). apply String.eqb_eq in Heq. subst. exact Hy.
Qed.

(** In the context a name that is not the name of an allowed function is a
    variable, a number. *)
Lemma make_context_number variables x v :
  mentions x ALLOWED_FUNCTIONS = false ->
  JS.lookup x (make_context variables) = Some v -> exists w, v = JS.VNumber w.
Proof.
  intros Hx. unfold make_context.
  simpl in Hx. repeat (apply orb_false_iff in Hx; destruct Hx as [? Hx]).
  repeat (rewrite lookup_Object_set_other; [| apply String.eqb_neq; assumption]).
  apply lookup_spread_number.
Qed.

(** The names of the allowed functions stand for the five functions of
    [Math]. *)
Lemma make_context_allowed variables f :
  mentions f ALLOWED_FUNCTIONS = true ->
  exists b, JS.lookup f (make_context variables) = Some (JS.VBuiltin b)
            /\ allowed_function b = true.
Proof.
  intros Hf. apply mentions_In in Hf. simpl in Hf. unfold make_context.
  destruct Hf as [<- | [<- | [<- | [<- | [<- | []]]]]]; eexists;
    (split;
     [repeat first [ apply lookup_Object_set_same
                   | rewrite lookup_Object_set_other by discriminate ]
     | reflexivity]).
Qed.

Lemma make_context_bound variables x :
  bound_name variables x = true -> JS.lookup x (make_context variables) <> None.
Proof.
  unfold bound_name. intros H. apply orb_true_iff in H. destruct H as [H | H].
  - apply mentions_In in H. unfold make_context.
    repeat apply lookup_Object_set_bound. apply lookup_spread_bound. exact H.
  - destruct (make_context_allowed variables x H) as (b & Hb & _).
    rewrite Hb. discriminate.
Qed.

(** The function [evaluateFormula] makes from an arithmetic formula whose
    names are variables or allowed functions: called on the context, it
    returns a number or throws a TypeError, the same in every state of the
    host, which it leaves as it is. *)
Lemma newFunction_arithmetic variables formula e :
  NoDup (Object_keys variables) ->
  forallb JS.valid_parameter (Object_keys variables) = true ->
  formula_expression formula = Some e ->
  arithmetic e = true ->
  forallb (bound_name variables) (expr_identifiers e) = true ->
  exists o,
    (forall h,
        JS.newFunction (map fst (make_context variables)) ("return " ++ formula ++ ";")
          (map snd (make_context variables)) h = Some (o, h))
    /\ (o = Throws JS.TypeError \/ exists x, o = Returns (JS.VNumber x)).
Proof.
  intros Hnd Hvalid Hexpr Harith Hbound.
  pose proof (make_context_NoDup variables Hnd) as Hctx.
  set (rho := JS.bind_parameters (map fst (make_context variables))
                (map snd (make_context variables)) []).
  assert (Hrho : forall x, JS.lookup x rho = JS.lookup x (make_context variables)).
  { intros x. unfold rho. rewrite lookup_bind_parameters by exact Hctx.
    destruct (JS.lookup x (make_context variables)); reflexivity. }
  assert (Hsettles : settles rho e).
  { apply eval_arithmetic.
    - intros x v Hx Hv. rewrite Hrho in Hv. exact (make_context_number variables x v Hx Hv).
    - intros f Hf. rewrite Hrho. exact (make_context_allowed variables f Hf).
    - exact Harith.
    - intros x Hx. rewrite Hrho. apply make_context_bound.
      rewrite forallb_forall in Hbound. exact (Hbound x Hx). }
  destruct Hsettles as (o & Ho & Hkind). exists o. split; [| exact Hkind].
  intros h. unfold JS.newFunction. rewrite (make_context_valid variables Hvalid).
  unfold formula_expression in Hexpr.
  destruct (JS.lex 0 ("return " ++ formula ++ ";")) as [ts |]; [| discriminate].
  destruct (JS.parse_body ts) as [[e' |] rest | |]; try discriminate.
  inversion Hexpr; subst e'. apply Ho.
Qed.

End ArithmeticFormulas.



(** ** The two hosts

    Module [Realm] extends module [JS]: what an expression evaluates to on
    the host of [JS], it evaluates to on the host of [Realm], whatever the
    two globals are bound to, and it leaves them as they are. *)

Section Extension.

Variables bound_isNaN bound_isFinite : JS.value.

Local Abbreviation up h := (Realm.mkHost h bound_isNaN bound_isFinite).

Lemma lift_up {E A : Type} (c : M JS.host E A) h o h' :
  c h = Some (o, h') -> Realm.lift c (up h) = Some (o, up h').
Proof. unfold Realm.lift. cbn [Realm.base]. intros ->. reflexivity. Qed.

(** A step of [JS] followed by a continuation, against a step of [Realm]
    followed by one: the steps agree, up to [R] on what they return, and
    so do the continuations. *)
Lemma bind_up {A A' B : Type} (R : A -> A' -> Prop)
      (c : M JS.host JS.exn A) (k : A -> M JS.host JS.exn B)
      (c' : M Realm.host JS.exn A') (k' : A' -> M Realm.host JS.exn B) h o h' :
  bind c k h = Some (o, h') ->
  (forall a h1, c h = Some (Returns a, h1) ->
                exists a', c' (up h) = Some (Returns a', up h1) /\ R a a') ->
  (forall e h1, c h = Some (Throws e, h1) -> c' (up h) = Some (Throws e, up h1)) ->
  (forall a a' h1, R a a' -> k a h1 = Some (o, h') -> k' a' (up h1) = Some (o, up h')) ->
  bind c' k' (up h) = Some (o, up h').
Proof.
  unfold bind. intros Hrun Hret Hthrow Hk.
  destruct (c h) as [[[a | e] h1] |]; [| | discriminate].
  - destruct (Hret a h1 eq_refl) as (a' & -> & HR). exact (Hk a a' h1 HR Hrun).
  - rewrite (Hthrow e h1 eq_refl). inversion Hrun; subst. reflexivity.
Qed.

Lemma to_number_up v h o h' :
  JS.to_number v h = Some (o, h') -> Realm.to_number v (up h) = Some (o, up h').
Proof.
  destruct v; cbn [JS.to_number Realm.to_number]; unfold ret, unmodelled;
    intros Heq; inversion Heq; reflexivity.
Qed.

Lemma numeric_up op va vb h o h' :
  (x <- JS.to_number va ;; y <- JS.to_number vb ;;
   ret (JS.VNumber (JS.apply_binop op x y))) h = Some (o, h') ->
  Realm.binary op va vb (up h) = Some (o, up h').
Proof.
  intros Hrun.
  assert (Hnum : (x <- Realm.to_number va ;; y <- Realm.to_number vb ;;
                  ret (JS.VNumber (JS.apply_binop op x y))) (up h) = Some (o, up h')).
  { apply (bind_up eq _ _ _ _ _ _ _ Hrun).
    - intros x h1 Hx. exists x. split; [exact (to_number_up _ _ _ _ Hx) | reflexivity].
    - intros e h1 He. exact (to_number_up _ _ _ _ He).
    - intros x x' h1 <- Hk. apply (bind_up eq _ _ _ _ _ _ _ Hk).
      + intros y h2 Hy. exists y. split; [exact (to_number_up _ _ _ _ Hy) | reflexivity].
      + intros e h2 He. exact (to_number_up _ _ _ _ He).
      + intros y y' h2 <- Hret. unfold ret in *. inversion Hret. reflexivity. }
  destruct op, va, vb; try exact Hnum; discriminate Hrun.
Qed.

Lemma identifier_up rho x h o h' :
  JS.eval rho (JS.EId x) h = Some (o, h') ->
  Realm.identifier rho x (up h) = Some (o, up h').
Proof.
  cbn [JS.eval]. unfold Realm.identifier.
  destruct (JS.lookup x rho) as [v |].
  - unfold ret. intros Heq. inversion Heq. reflexivity.
  - unfold JS.global.
    destruct (String.eqb_spec x "NaN") as [-> | _];
      [unfold ret; intros Heq; inversion Heq; reflexivity |].
    destruct (String.eqb_spec x "Infinity") as [-> | _];
      [unfold ret; intros Heq; inversion Heq; reflexivity |].
    destruct (String.eqb_spec x "undefined") as [-> | _];
      [unfold ret; intros Heq; inversion Heq; reflexivity |].
    destruct (String.eqb_spec x "Math") as [-> | _];
      [unfold ret; intros Heq; inversion Heq; reflexivity |].
    discriminate.
Qed.

Lemma get_up v x h o h' :
  match v with
  | JS.VMath =>
      match JS.math_property x with
      | Some b => ret (JS.VBuiltin b)
      | None => unmodelled
      end
  | JS.VUndefined => throw JS.TypeError
  | _ => unmodelled
  end h = Some (o, h') ->
  Realm.get v x (up h) = Some (o, up h').
Proof.
  destruct v; try discriminate; cbn [Realm.get].
  - unfold throw. intros Heq. inversion Heq. reflexivity.
  - destruct (JS.math_property x); [| discriminate].
    unfold ret. intros Heq. inversion Heq. reflexivity.
Qed.

Lemma call_up n vf this vs h o h' :
  match vf with
  | JS.VBuiltin b => JS.apply_builtin b vs
  | JS.VFunction _ => unmodelled
  | _ => throw JS.TypeError
  end h = Some (o, h') ->
  Realm.call (S n) vf this vs (up h) = Some (o, up h').
Proof.
  destruct vf as [| x | b | | b | s | body]; cbn [Realm.call];
    try (unfold throw; intros Heq; inversion Heq; reflexivity);
    try discriminate.
  destruct b; cbn [Realm.apply_builtin]; try discriminate; apply lift_up.
Qed.

Lemma size_call f args :
  expr_size (JS.ECall f args) = S (S (expr_size f + args_size args)).
Proof. reflexivity. Qed.

Lemma realm_eval_call n rho f args :
  Realm.eval (S n) rho (JS.ECall f args)
  = (callee <- match f with
               | JS.EMember a x =>
                   this <- Realm.eval n rho a ;;
                   vf <- Realm.get this x ;;
                   ret (this, vf)
               | _ =>
                   vf <- Realm.eval n rho f ;;
                   ret (JS.VUndefined, vf)
               end ;;
     vs <- realm_eval_args n rho args ;;
     Realm.call n (snd callee) (fst callee) vs).
Proof. reflexivity. Qed.

Lemma realm_eval_args_cons n rho a r :
  realm_eval_args n rho (a :: r)
  = (v <- Realm.eval n rho a ;; vs <- realm_eval_args n rho r ;; ret (v :: vs)).
Proof. reflexivity. Qed.

(** The arguments, given the expressions of size below [n]. *)
Lemma eval_args_up n rho :
  (forall e h o h', expr_size e < n -> JS.eval rho e h = Some (o, h') ->
                    Realm.eval n rho e (up h) = Some (o, up h')) ->
  forall args h o h',
    args_size args < n ->
    eval_args rho args h = Some (o, h') ->
    realm_eval_args n rho args (up h) = Some (o, up h').
Proof.
  intros IH. induction args as [| a r IHr]; intros h o h' Hsize Hrun.
  - unfold eval_args, ret in Hrun. inversion Hrun. reflexivity.
  - cbn [args_size] in Hsize. rewrite eval_args_cons in Hrun.
    rewrite realm_eval_args_cons.
    apply (bind_up eq _ _ _ _ _ _ _ Hrun).
    + intros v h1 Hv. exists v. split; [| reflexivity]. apply IH; [lia | exact Hv].
    + intros e h1 He. apply IH; [lia | exact He].
    + intros v v' h1 <- Hk. apply (bind_up eq _ _ _ _ _ _ _ Hk).
      * intros vs h2 Hvs. exists vs. split; [| reflexivity]. apply IHr; [lia | exact Hvs].
      * intros e h2 He. apply IHr; [lia | exact He].
      * intros vs vs' h2 <- Hret. unfold ret in *. inversion Hret. reflexivity.
Qed.

Lemma eval_up :
  forall fuel e rho h o h',
    expr_size e < fuel ->
    JS.eval rho e h = Some (o, h') ->
    Realm.eval fuel rho e (up h) = Some (o, up h').
Proof.
  induction fuel as [| n IH]; intros e rho h o h' Hsize Hrun; [lia |].
  destruct e as [x | x | op a | op a b | f args | a x].
  - cbn [JS.eval] in Hrun. unfold ret in Hrun. inversion Hrun. reflexivity.
  - cbn [Realm.eval]. apply identifier_up. exact Hrun.
  - cbn [expr_size] in Hsize. cbn [JS.eval] in Hrun. cbn [Realm.eval].
    apply (bind_up eq _ _ _ _ _ _ _ Hrun).
    + intros v h1 Hv. exists v. split; [| reflexivity]. apply IH; [lia | exact Hv].
    + intros e h1 He. apply IH; [lia | exact He].
    + intros v v' h1 <- Hk. apply (bind_up eq _ _ _ _ _ _ _ Hk).
      * intros y h2 Hy. exists y. split; [exact (to_number_up _ _ _ _ Hy) | reflexivity].
      * intros e h2 He. exact (to_number_up _ _ _ _ He).
      * intros y y' h2 <- Hret. unfold ret in *. inversion Hret. reflexivity.
  - cbn [expr_size] in Hsize. cbn [JS.eval] in Hrun. cbn [Realm.eval].
    apply (bind_up eq _ _ _ _ _ _ _ Hrun).
    + intros v h1 Hv. exists v. split; [| reflexivity]. apply IH; [lia | exact Hv].
    + intros e h1 He. apply IH; [lia | exact He].
    + intros va va' h1 <- Hk. apply (bind_up eq _ _ _ _ _ _ _ Hk).
      * intros v h2 Hv. exists v. split; [| reflexivity]. apply IH; [lia | exact Hv].
      * intros e h2 He. apply IH; [lia | exact He].
      * intros vb vb' h2 <- Hnum. apply numeric_up. exact Hnum.
  - rewrite size_call in Hsize. rewrite eval_call in Hrun.
    destruct n as [| m]; [lia |].
    rewrite realm_eval_call.
    apply (bind_up (fun vf callee => snd callee = vf) _ _ _ _ _ _ _ Hrun).
    + intros vf h1 Hf.
      destruct f as [x | x | op a | op a b | g gargs | a x];
        try (exists (JS.VUndefined, vf); split; [| reflexivity];
             apply (IH _ rho h _ h1) in Hf; [| cbn [expr_size] in *; lia];
             unfold bind; rewrite Hf; reflexivity).
      cbn [JS.eval] in Hf. apply bind_inversion in Hf.
      destruct Hf as [(v & h2 & Hv & Hget) | (e & _ & Heq)]; [| discriminate Heq].
      exists (v, vf). split; [| reflexivity].
      apply (IH _ rho h _ h2) in Hv; [| cbn [expr_size] in *; lia].
      apply get_up in Hget.
      unfold bind. rewrite Hv, Hget. reflexivity.
    + intros e h1 Hf.
      destruct f as [x | x | op a | op a b | g gargs | a x];
        try (apply (IH _ rho h _ h1) in Hf; [| cbn [expr_size] in *; lia];
             unfold bind; rewrite Hf; reflexivity).
      cbn [JS.eval] in Hf. apply bind_inversion in Hf.
      destruct Hf as [(v & h2 & Hv & Hget) | (e0 & Hv & Heq)].
      * apply (IH _ rho h _ h2) in Hv; [| cbn [expr_size] in *; lia].
        apply get_up in Hget.
        unfold bind. rewrite Hv, Hget. reflexivity.
      * inversion Heq; subst e0.
        apply (IH _ rho h _ h1) in Hv; [| cbn [expr_size] in *; lia].
        unfold bind. rewrite Hv. reflexivity.
    + intros vf callee h1 <- Hk. apply (bind_up eq _ _ _ _ _ _ _ Hk).
      * intros vs h2 Hvs. exists vs. split; [| reflexivity].
        apply (eval_args_up (S m) rho); [| lia | exact Hvs].
        intros e0 h0 o0 h0' Hs0 He0. apply IH; [lia | exact He0].
      * intros e h2 He.
        apply (eval_args_up (S m) rho); [| lia | exact He].
        intros e0 h0 o0 h0' Hs0 He0. apply IH; [lia | exact He0].
      * intros vs vs' h2 <- Hcall. apply call_up. exact Hcall.
  - cbn [expr_size] in Hsize. cbn [JS.eval] in Hrun. cbn [Realm.eval].
    apply (bind_up eq _ _ _ _ _ _ _ Hrun).
    + intros v h1 Hv. exists v. split; [| reflexivity]. apply IH; [lia | exact Hv].
    + intros e h1 He. apply IH; [lia | exact He].
    + intros v v' h1 <- Hget. apply get_up. exact Hget.
Qed.

End Extension.

Lemma newFunction_extends params formula args h o h' :
  formula_size formula < Realm.steps ->
  JS.newFunction params ("return " ++ formula ++ ";") args h = Some (o, h') ->
  Realm.newFunction params ("return " ++ formula ++ ";") args (Realm.standard h)
  = Some (o, Realm.standard h').
Proof.
  unfold formula_size, formula_expression, JS.newFunction, Realm.newFunction.
  intros Hsize.
  destruct (forallb JS.valid_parameter params); [| discriminate].
  destruct (JS.lex 0 ("return " ++ formula ++ ";")) as [ts |]; [| discriminate].
  destruct (JS.parse_body ts) as [[e |] rest | |]; try discriminate.
  - apply eval_up. exact Hsize.
  - unfold ret. intros Heq. inversion Heq. reflexivity.
  - unfold throw. intros Heq. inversion Heq. reflexivity.
Qed.

(** With the two globals bound to the built-in functions, the host of
    [Realm] answers as the host of [JS] does. *)
Lemma standard_isNaN x h :
  isNaN x (Realm.standard h) = Some (Returns (is_nan x), Realm.standard h).
Proof. reflexivity. Qed.

Lemma standard_isFinite x h :
  isFinite x (Realm.standard h) = Some (Returns (is_finite x), Realm.standard h).
Proof. reflexivity. Qed.

(** What [evaluateFormula] does on the host of [JS] it does on the host of
    [Realm] in its standard state, for a formula within the depth granted
    to a call. *)
Lemma evaluateFormula_extends formula variables h o h' :
  formula_size formula < Realm.steps ->
  evaluateFormula JS.newFunction formula variables h = Some (o, h') ->
  evaluateFormula Realm.newFunction formula variables (Realm.standard h)
  = Some (o, Realm.standard h').
Proof.
  intros Hsize. unfold evaluateFormula.
  destruct (validateFormula formula variables); cbn [negb];
    [| unfold throw; intros Heq; inversion Heq; reflexivity].
  unfold evalFunction, inside_try, try_catch, bind.
  destruct (JS.newFunction (map fst (make_context variables))
              ("return " ++ formula ++ ";") (map snd (make_context variables)) h)
    as [[[v | e] h1] |] eqn:Hf; [| | discriminate];
    rewrite (newFunction_extends _ _ _ _ _ _ Hsize Hf).
  - destruct v as [| x | b | | b | s | body];
      try (unfold throw; intros Heq; inversion Heq; reflexivity).
    rewrite standard_isNaN. cbn [isNaN isFinite standard_globals]. unfold ret.
    destruct (is_nan x); [unfold throw; intros Heq; inversion Heq; reflexivity |].
    rewrite standard_isFinite.
    destruct (is_finite x); cbn [negb]; unfold throw;
      intros Heq; inversion Heq; reflexivity.
  - destruct e; unfold throw; intros Heq; inversion Heq; reflexivity.
Qed.

(** ** Dimensions of a part: failures *)

Section AxisFailures.

Context {host : Type} {globals : Globals host}.
Variable new_Function : list string -> string -> list JS.value -> M host JS.exn JS.value.

Lemma axis_throws_iff formula variables current h e h' :
  axis new_Function formula variables current h = Some (Throws e, h')
  <-> axis_throws new_Function formula variables h e h'.
Proof.
  unfold axis, axis_throws. destruct (present formula) as [f |]; split.
  - intros Hb. apply bind_inversion in Hb.
    destruct Hb as [(x & h1 & _ & Hr) | (e0 & He & Heq)].
    + unfold ret in Hr. discriminate.
    + inversion Heq; subst. exact He.
  - intros Hf. unfold bind. rewrite Hf. reflexivity.
  - unfold ret. discriminate.
  - contradiction.
Qed.

End AxisFailures.

(** X13.  [evaluatePartDimensions] fails with the error of the first axis
    that fails, in the order width, height, depth, and no record is returned:
    it throws [e] exactly when the width formula throws [e], or the width is
    obtained and the height formula throws [e], or width and height are
    obtained and the depth formula throws [e].  The axes after the failing
    one are not evaluated. *)
Theorem evaluatePartDimensions_first_failure :
  forall (host : Type) (globals : Globals host)
         (new_Function : list string -> string -> list JS.value -> M host JS.exn JS.value)
         (p : part) (variables : VariableBinding) (h h' : host) (e : Error),
    evaluatePartDimensions new_Function p variables h = Some (Throws e, h')
    <-> axis_throws new_Function (formula_width p) variables h e h'
        \/ (exists w h1,
               axis_result new_Function (formula_width p) variables h w h1
               /\ axis_throws new_Function (formula_height p) variables h1 e h')
        \/ (exists w h1 ht h2,
               axis_result new_Function (formula_width p) variables h w h1
               /\ axis_result new_Function (formula_height p) variables h1 ht h2
               /\ axis_throws new_Function (formula_depth p) variables h2 e h').
Proof.
  intros host globals new_Function p variables h h' e.
  unfold evaluatePartDimensions. simpl. split.
  - intros Hrun.
    apply bind_inversion in Hrun. destruct Hrun as [(w & h1 & Hw & Hrun) | (e0 & He & Heq)].
    + apply axis_returns in Hw.
      apply bind_inversion in Hrun.
      destruct Hrun as [(ht & h2 & Hh & Hrun) | (e0 & He & Heq)].
      * apply axis_returns in Hh.
        apply bind_inversion in Hrun.
        destruct Hrun as [(d & h3 & Hd & Hrun) | (e0 & He & Heq)].
        -- unfold ret in Hrun. discriminate.
        -- inversion Heq; subst. apply axis_throws_iff in He.
           right. right. exists w, h1, ht, h2. auto.
      * inversion Heq; subst. apply axis_throws_iff in He.
        right. left. exists w, h1. auto.
    + inversion Heq; subst. apply axis_throws_iff in He. left. exact He.
  - intros [Hw | [(w & h1 & Hw & Hh) | (w & h1 & ht & h2 & Hw & Hh & Hd)]].
    + apply (axis_throws_iff new_Function _ _ (JS.VNumber 0)) in Hw.
      unfold bind. rewrite Hw. reflexivity.
    + apply axis_returns in Hw.
      apply (axis_throws_iff new_Function _ _ (JS.VNumber 0)) in Hh.
      unfold bind. rewrite Hw, Hh. reflexivity.
    + apply axis_returns in Hw, Hh.
      apply (axis_throws_iff new_Function _ _ (JS.VNumber 0)) in Hd.
      unfold bind. rewrite Hw, Hh, Hd. reflexivity.
Qed.



(** ** The default parts *)

Lemma part_valid_keys variables1 variables2 p :
  Object_keys variables1 = Object_keys variables2 ->
  part_valid variables1 p = part_valid variables2 p.
Proof.
  intros Hk. unfold part_valid, validateFormula. rewrite Hk. reflexivity.
Qed.


(** X15.  Whether the default formulas of the migration pass validation
    depends on the order of the variables and not on their values.  With the
    nine variables listed longer names first, every formula of every default
    part is accepted; listed short names first, the parts that use [T_back],
    [T_door], [H_drawer], [D_drawer] or [T_bottom] have a formula that is
    rejected, nine parts out of fourteen. *)
Theorem default_parts_validation :
  (forall variables,
      Object_keys variables = Object_keys variables_long_first ->
      forallb (fun np => part_valid variables (snd np)) default_parts = true)
  /\ (forall variables,
         Object_keys variables = Object_keys variables_short_first ->
         map fst (filter (fun np => negb (part_valid variables (snd np))) default_parts)
         = ["Back Panel"; "Door - Single"; "Door - Left"; "Door - Right";
            "Drawer Front"; "Drawer Side - Left"; "Drawer Side - Right";
            "Drawer Back"; "Drawer Bottom"]).
Proof.
  split; intros variables Hk.
  - assert (Hall : forall np, In np default_parts ->
                              part_valid variables (snd np) = true).
    { intros np Hin. rewrite (part_valid_keys _ _ (snd np) Hk).
      revert np Hin. apply Forall_forall. repeat constructor. }
    apply forallb_forall. exact Hall.
  - rewrite (filter_ext _ (fun np => negb (part_valid variables_short_first (snd np))));
      [reflexivity |].
    intros np. f_equal. apply part_valid_keys. exact Hk.
Qed.

(** ** One operator between two variables *)

Section Binary.

Lemma lex_identifier_then x rest :
  JS.next_is JS.is_ident_start x = true ->
  Str.all Str.is_ident_part x = true ->
  JS.next_is Str.is_ident_part rest = false ->
  JS.lex 0 (x ++ rest) = option_map (cons (JS.TId x)) (JS.lex 0 rest).
Proof.
  intros Hstart Hall Hrest. destruct x as [| c r]; [discriminate |].
  simpl in Hstart. destruct (ident_start_class c Hstart) as (Hb & Hd & Hdot).
  pose proof (ident_length_append (String c r) rest Hall Hrest) as Hlen.
  pose proof (take_append (String c r) rest) as Htake.
  cbn [String.append] in Hlen, Htake |- *. cbn [JS.lex].
  rewrite Hb, Hd, Hdot, Hstart. cbn [orb andb].
  rewrite Hlen, Htake. cbn [String.length Nat.sub].
  rewrite Nat.sub_0_r, lex_skip_append. reflexivity.
Qed.

Lemma ident_start_not_operator c :
  JS.is_ident_start c = true ->
  Ascii.eqb "+" c = false /\ Ascii.eqb "-" c = false
  /\ Ascii.eqb "*" c = false /\ Ascii.eqb "/" c = false.
Proof.
  destruct c as [[] [] [] [] [] [] [] []]; intros H;
    try (repeat split; reflexivity); discriminate H.
Qed.

Lemma append_associative (a b c : string) : ((a ++ b) ++ c = a ++ b ++ c)%string.
Proof.
  induction a as [| d a IH]; [reflexivity |].
  cbn [String.append]. rewrite IH. reflexivity.
Qed.

Lemma lex_operator op t :
  JS.next_is (Ascii.eqb "+") t = false ->
  JS.next_is (Ascii.eqb "-") t = false ->
  JS.next_is (Ascii.eqb "*") t = false ->
  JS.next_is (Ascii.eqb "/") t = false ->
  JS.lex 0 (binop_text op ++ t) = option_map (cons (binop_token op)) (JS.lex 0 t).
Proof.
  intros Hp Hm Ht Hs.
  destruct op; cbn [binop_text String.append JS.lex binop_token];
    cbn [JS.is_blank]; simpl orb; cbv iota;
    rewrite ?Hp, ?Hm, ?Ht, ?Hs; reflexivity.
Qed.

(** The tokens of [x op y;]. *)
Lemma lex_binary x y op :
  JS.valid_parameter x = true -> JS.valid_parameter y = true ->
  JS.lex 0 (x ++ binop_text op ++ y ++ ";")
  = Some [JS.TId x; binop_token op; JS.TId y; JS.TSemi].
Proof.
  intros Hx Hy.
  destruct (valid_parameter_parts x Hx) as (Hxs & Hxa & _).
  destruct (valid_parameter_parts y Hy) as (Hys & Hya & _).
  rewrite (lex_identifier_then x _ Hxs Hxa) by (destruct op; reflexivity).
  assert (Hnext : JS.next_is (Ascii.eqb "+") (y ++ ";") = false
                  /\ JS.next_is (Ascii.eqb "-") (y ++ ";") = false
                  /\ JS.next_is (Ascii.eqb "*") (y ++ ";") = false
                  /\ JS.next_is (Ascii.eqb "/") (y ++ ";") = false).
  { destruct y as [| c r]; [discriminate |]. simpl in Hys.
    exact (ident_start_not_operator c Hys). }
  destruct Hnext as (Hp & Hm & Ht & Hs).
  rewrite (lex_operator op _ Hp Hm Ht Hs), (lex_identifier y Hys Hya). reflexivity.
Qed.

Lemma newFunction_binary params args x y op wx wy h :
  forallb JS.valid_parameter params = true ->
  JS.valid_parameter x = true -> JS.valid_parameter y = true ->
  JS.lookup x (JS.bind_parameters params args []) = Some (JS.VNumber wx) ->
  JS.lookup y (JS.bind_parameters params args []) = Some (JS.VNumber wy) ->
  JS.newFunction params ("return " ++ (x ++ binop_text op ++ y) ++ ";") args h
  = Some (Returns (JS.VNumber (JS.apply_binop op wx wy)), h).
Proof.
  intros Hp Hx Hy Hwx Hwy.
  destruct (valid_parameter_parts x Hx) as (_ & _ & Hrx).
  destruct (valid_parameter_parts y Hy) as (_ & _ & Hry).
  unfold JS.newFunction. rewrite Hp, lex_return.
  replace ((x ++ binop_text op ++ y) ++ ";")%string
    with (x ++ binop_text op ++ y ++ ";")%string
    by (rewrite !append_associative; reflexivity).
  rewrite (lex_binary x y op Hx Hy). cbn [option_map]. unfold JS.parse_body.
  assert (Hres : existsb JS.reserved_token
                   [JS.TId x; binop_token op; JS.TId y; JS.TSemi] = false).
  { cbn [existsb JS.reserved_token]. rewrite Hrx, Hry. destruct op; reflexivity. }
  rewrite Hres.
  assert (Hparse : JS.parse_additive
                     (8 * List.length [JS.TId x; binop_token op; JS.TId y; JS.TSemi] + 8)
                     [JS.TId x; binop_token op; JS.TId y; JS.TSemi]
                   = JS.POk (JS.EBin op (JS.EId x) (JS.EId y)) [JS.TSemi]).
  { destruct op; reflexivity. }
  rewrite Hparse. cbn [JS.eval]. unfold bind. rewrite Hwx, Hwy. reflexivity.
Qed.

Variable keys : list string.
Hypothesis keys_prefix_free : prefix_free keys.
Hypothesis keys_valid : forallb JS.valid_parameter keys = true.

Lemma key_plain k : In k keys -> JS.next_is (fun _ => true) k = true.
Proof.
  intros Hk. rewrite forallb_forall in keys_valid.
  destruct (valid_parameter_parts k (keys_valid k Hk)) as (Hs & _ & _).
  destruct k; [discriminate | reflexivity].
Qed.

Lemma key_start k : In k keys -> JS.next_is JS.is_ident_start k = true.
Proof.
  intros Hk. rewrite forallb_forall in keys_valid.
  exact (proj1 (valid_parameter_parts k (keys_valid k Hk))).
Qed.

(** A key at the head of a text is replaced by one mark. *)
Lemma replace_key k rest :
  In k keys ->
  Str.replace_alts keys "V" 0 (k ++ rest)
  = String "V" (Str.replace_alts keys "V" 0 rest).
Proof.
  intros Hk. pose proof (key_plain k Hk) as Hne.
  destruct k as [| c k']; [discriminate |].
  cbn [String.append Str.replace_alts].
  change (String c (k' ++ rest)) with (String c k' ++ rest)%string.
  rewrite (first_match_unique keys _ (String c k') keys_prefix_free Hk
             (prefix_append (String c k') rest)).
  cbn [String.length]. rewrite replace_alts_skip_append. reflexivity.
Qed.

Lemma replace_binary x y op :
  In x keys -> In y keys ->
  Str.replace_alts keys "V" 0 (x ++ binop_text op ++ y)
  = ("V" ++ binop_text op ++ "V")%string.
Proof.
  intros Hx Hy. rewrite (replace_key x _ Hx).
  assert (Hop : forall t, Str.first_match keys ((binop_text op ++ t)%string) = None).
  { intros t. apply (first_match_head JS.is_ident_start); [exact key_start |].
    destruct op; reflexivity. }
  assert (Hend : Str.replace_alts keys "V" 0 EmptyString = EmptyString).
  { cbn [Str.replace_alts].
    rewrite (first_match_head (fun _ => true) keys EmptyString key_plain eq_refl).
    reflexivity. }
  pose proof (replace_key y EmptyString Hy) as Hy'.
  rewrite Hend in Hy'.
  assert (Hyy : (y ++ "")%string = y) by (clear; induction y; simpl; congruence).
  rewrite Hyy in Hy'.
  specialize (Hop y).
  destruct op; cbn [binop_text String.append] in Hop |- *;
    cbn [Str.replace_alts]; rewrite Hop, Hy'; reflexivity.
Qed.

End Binary.

(** X16.  One operator between two variables is computed in IEEE
    arithmetic.  For a binding with distinct identifier keys none of which is
    a prefix of another, two variables [x] and [y], not named like allowed
    functions, with values [wx] and [wy], and [op] one of [+ - * /], the
    formula [x op y] passes validation and [evaluateFormula] returns the
    double [wx op wy], or throws the evaluation error when that is [NaN] or
    infinite; the host is left as it was. *)
Theorem evaluateFormula_binary :
  forall (variables : VariableBinding) (x y : string) (wx wy : float)
         (op : JS.binop) (h : JS.host),
    NoDup (Object_keys variables) ->
    forallb JS.valid_parameter (Object_keys variables) = true ->
    prefix_free (Object_keys variables) ->
    variable_value x variables = Some wx ->
    variable_value y variables = Some wy ->
    mentions x ALLOWED_FUNCTIONS = false ->
    mentions y ALLOWED_FUNCTIONS = false ->
    validateFormula (x ++ binop_text op ++ y) variables = true
    /\ evaluateFormula JS.newFunction (x ++ binop_text op ++ y) variables h
       = Some (checked (x ++ binop_text op ++ y) (JS.apply_binop op wx wy), h).
Proof.
  intros variables x y wx wy op h Hnd Hvalid Hpf Hwx Hwy Hfx Hfy.
  pose proof (variable_value_key x variables wx Hwx) as Hxk.
  pose proof (variable_value_key y variables wy Hwy) as Hyk.
  assert (Hx : JS.valid_parameter x = true)
    by (rewrite forallb_forall in Hvalid; exact (Hvalid x Hxk)).
  assert (Hy : JS.valid_parameter y = true)
    by (rewrite forallb_forall in Hvalid; exact (Hvalid y Hyk)).
  destruct (valid_parameter_parts x Hx) as (Hxs & Hxa & _).
  destruct (valid_parameter_parts y Hy) as (Hys & Hya & _).
  assert (Hv : validateFormula (x ++ binop_text op ++ y) variables = true).
  { unfold validateFormula.
    assert (Hns : Str.all (fun c => negb (Str.is_space c)) (x ++ binop_text op ++ y) = true).
    { rewrite !all_append.
      rewrite (all_impl _ _ x (fun c Hc => f_equal negb (ident_part_not_space c Hc)) Hxa).
      rewrite (all_impl _ _ y (fun c Hc => f_equal negb (ident_part_not_space c Hc)) Hya).
      destruct op; reflexivity. }
    rewrite (remove_whitespace_fixed _ Hns).
    destruct x as [| cx rx]; [discriminate |].
    cbn [String.append].
    change (String cx (rx ++ binop_text op ++ y))
      with (String cx rx ++ binop_text op ++ y)%string.
    unfold testFormula.
    apply (testFormula_allowed
             (fun a => Ascii.eqb a "m" || Ascii.eqb a "r" || Ascii.eqb a "f"
                       || Ascii.eqb a "c")
             _ ("V" ++ binop_text op ++ "V")%string);
      try reflexivity.
    - destruct op; reflexivity.
    - destruct op; reflexivity.
    - destruct (Object_keys variables) as [| k0 keys] eqn:Hk; [destruct Hxk |].
      unfold Str.replace_all.
      rewrite (replace_binary (k0 :: keys) Hpf Hvalid (String cx rx) y op Hxk Hyk).
      reflexivity. }
  split; [exact Hv |].
  rewrite (evaluateFormula_standard JS.newFunction _ variables h
             (JS.VNumber (JS.apply_binop op wx wy)) h Hv).
  - reflexivity.
  - apply newFunction_binary.
    + apply make_context_valid. exact Hvalid.
    + exact Hx.
    + exact Hy.
    + rewrite lookup_bind_parameters by (apply make_context_NoDup; exact Hnd).
      rewrite (make_context_variable variables x wx Hfx Hwx). reflexivity.
    + rewrite lookup_bind_parameters by (apply make_context_NoDup; exact Hnd).
      rewrite (make_context_variable variables y wy Hfy Hwy). reflexivity.
Qed.

Lemma evaluateFormula_binary_witness :
  validateFormula "H_drawer-T_door"
    [("W", 24%float); ("H_drawer", 6%float); ("T_door", 0.75%float)] = true
  /\ evaluateFormula JS.newFunction "H_drawer-T_door"
       [("W", 24%float); ("H_drawer", 6%float); ("T_door", 0.75%float)] host0
     = Some (Returns 5.25%float, host0).
Proof.
  apply (evaluateFormula_binary
           [("W", 24%float); ("H_drawer", 6%float); ("T_door", 0.75%float)]
           "H_drawer" "T_door" 6%float 0.75%float JS.Sub host0);
    try reflexivity.
  - repeat constructor; simpl; intuition discriminate.
  - intros a b [<- | [<- | [<- | []]]] [<- | [<- | [<- | []]]] Hp;
      try reflexivity; discriminate Hp.
Defined.
